(** * nonebot-plugin-gemini-vision: the /gemini command handler

    A shallow embedding of [nonebot_plugin_gemini_vision/__init__.py].

    The plugin is asynchronous glue code: it reads attributes of message
    segments, performs HTTP GETs, writes log lines, sends chat messages
    through a matcher, and calls two functions of the sibling module
    [core].  Each [async def] becomes a computation in the monad [M]
    below: a state monad over the handler's observable world (the ordered
    trace of effects and the conversation-history store) with Python
    exceptions as the error component.  One handler run is one cooperative
    task, so [await] is sequencing. *)

From Stdlib Require Import String Ascii ZArith.
From Stdlib.Strings Require Import Byte.
From stdpp Require Import gmap strings list pretty.


(** ** Python values *)

(** [bytes] objects. *)
Definition bytes := list byte.

(** Python truthiness ([if x:], [not x]) at the types the plugin tests. *)
Class Truthy (A : Type) := truthy : A → bool.

#[export] Instance truthy_str : Truthy string :=
  λ s, match s with EmptyString => false | String _ _ => true end.
#[export] Instance truthy_list {A} : Truthy (list A) :=
  λ l, match l with [] => false | _ :: _ => true end.
(** [None] is falsy; an [Optional] value that is present is as truthy as
    its content. *)
#[export] Instance truthy_option {A} `{Truthy A} : Truthy (option A) :=
  λ o, match o with None => false | Some a => truthy a end.

(** An attribute of a duck-typed object, as [hasattr(o, "a")] and
    [o.a is not None] see it. *)
Inductive attr (A : Type) : Type :=
  | Missing            (* hasattr(o, "a") is False *)
  | PyNone             (* o.a is None *)
  | Val (a : A).       (* o.a is a value *)
Arguments Missing {A}.
Arguments PyNone {A}.
Arguments Val {A} a.

(** ** Exceptions *)

(** The exceptions a handler run can meet.  [FinishedException] is the
    framework's control-flow signal and, as in NoneBot, a subclass of
    [Exception]; every other exception is kept by its [str(e)] text, which
    is all the plugin ever reads of it. *)
Inductive exn : Type :=
  | FinishedException
  | Exception (text : string).

(** [str(e)], as the f-strings of the log lines and of the error reply
    format it; NoneBot's exceptions print as their [repr]. *)
Definition str (e : exn) : string :=
  match e with
  | FinishedException => "FinishedException()"
  | Exception text => text
  end.

Inductive result (A : Type) : Type :=
  | Ok (a : A)
  | Raise (e : exn).
Arguments Ok {A} a.
Arguments Raise {A} e.

(** ** Messages *)

Definition MsgId := string.

(** An incoming message segment, reduced to what [to_image_data] reads of
    it: [segment.type], [segment.data] (absent, or a mapping),
    [segment.raw], [segment.url], and [isinstance(segment, AlconnaImage)].
    The mapping is taken with string values: the segments covered are
    those whose "url" entry, where the data has one, is a string, as in
    the image segments of the adapters. *)
Record Segment : Type := {
  seg_type : string;
  seg_data : option (gmap string string);
  seg_raw : attr bytes;
  seg_url : attr string;
  seg_is_AlconnaImage : bool;
}.

Definition Message := list Segment.

(** A segment of an outgoing [UniMessage]. *)
Inductive UniSegment : Type :=
  | Text (text : string)
  | Image (raw : bytes)
  | Reply (id : MsgId).

Definition UniMessage := list UniSegment.

(** [UniMessage(x)] for a string or [None]; [UniMessage()] is
    [UniMessage_new None]. *)
Definition UniMessage_new (message : option string) : UniMessage :=
  match message with
  | Some text => [Text text]
  | None => []
  end.

(** [UniMessage.image(raw=...)]. *)
Definition UniMessage_image (raw : bytes) : UniMessage := [Image raw].

(** [msg.reply(id=msg_id)]: the message with a reply segment added. *)
Definition reply (msg : UniMessage) (id : MsgId) : UniMessage :=
  msg ++ [Reply id].

(** ** Collaborators *)

(** Modelled from the spec: [GeminiResponse] is declared in [core.py],
    which is not among the sources; the spec gives its fields as
    { success: bool, text: optional string, image: optional byte buffer,
    error: optional string }. *)
Record GeminiResponse : Type := {
  success : bool;
  text : option string;
  image : option bytes;
  error : option string;
}.

(** Modelled from the spec: the conversation-history store of [core.py], a
    process-wide mapping from user id to an ordered sequence of prior
    prompt/response turns. *)
Definition Turn : Type := string * string.
Abbreviation History := (gmap string (list Turn)).

(** [prompt: Match[str]]; [match_result] is read only when the match is
    available. *)
Record Match : Type := {
  match_available : bool;
  match_result : string;
}.

(** [session.id1] is an optional string. *)
Record Session : Type := { id1 : option string }.

(** [str(session.id1)]. *)
Definition str_id (id : option string) : string :=
  match id with
  | Some s => s
  | None => "None"
  end.

(** The record [ReplyRecordExtension.get_reply] returns; [reply_msg] is
    the referenced message in the adapter's own format. *)
Record ReplyRecord : Type := { reply_msg : Message }.

Record ReplyRecordExtension : Type := {
  get_reply : MsgId → option ReplyRecord;
}.

(** [event.get_message()] is called inside a [try]: it may raise. *)
Record Event : Type := { get_message : result Message }.

Inductive Bot : Type := TheBot.

(** What an HTTP GET of an image URL comes to: a response with its status
    and body, or an exception raised by the client (while connecting or
    while reading the body). *)
Inductive HttpOutcome : Type :=
  | Response (status : Z) (body : bytes)
  | ClientError (e : exn).

(** ** Effects and the handler monad *)

Inductive LogLevel : Type := INFO | ERROR.

Inductive Matcher : Type := gemini_command | help_command.

(** The observable steps of a handler run, in the order they happen. *)
Inductive Effect : Type :=
  | Log (level : LogLevel) (line : string)
  | HttpGet (url : string)
  | Send (matcher : Matcher) (message : UniMessage)
  | ClearHistory (user_id : string)
  | ChatWithGemini (prompt user_id : string) (image_list : list bytes).

Record State : Type := {
  trace : list Effect;
  conversation_history : History;
}.

Definition M (A : Type) : Type := State → result A * State.

#[export] Instance M_ret : MRet M := λ A a st, (Ok a, st).

#[export] Instance M_bind : MBind M := λ A B f m st,
  match m st with
  | (Ok a, st') => f a st'
  | (Raise e, st') => (Raise e, st')
  end.

Definition raise {A} (e : exn) : M A := λ st, (Raise e, st).

(** Lift a value that may be an exception. *)
Definition lift {A} (r : result A) : M A := λ st, (r, st).

(** [try: body / except Exception as e: handler e].  Every exception of
    [exn] is an [Exception], so the handler sees them all; what the
    handler raises leaves the statement. *)
Definition try_except {A} (body : M A) (handler : exn → M A) : M A := λ st,
  match body st with
  | (Ok a, st') => (Ok a, st')
  | (Raise e, st') => handler e st'
  end.

Definition emit (e : Effect) : M unit := λ st,
  (Ok tt, {| trace := trace st ++ [e];
             conversation_history := conversation_history st |}).

Definition logger_info (line : string) : M unit := emit (Log INFO line).
Definition logger_error (line : string) : M unit := emit (Log ERROR line).

(** [for x in l: body], the loop appending to a list in place.  The list
    object outlives an exception of the body, so the loop hands back what
    it had accumulated together with the exception that ended it, if one
    did. *)
Fixpoint for_loop {A S} (l : list A) (acc : S) (body : S → A → M S)
    : M (S * option exn) := λ st,
  match l with
  | [] => (Ok (acc, None), st)
  | x :: l' =>
      match body acc x st with
      | (Ok acc', st') => for_loop l' acc' body st'
      | (Raise e, st') => (Ok (acc, Some e), st')
      end
  end.

(** [matcher.send(message)], for a message the chat platform delivers;
    [Platform.send] below is the call on a platform that may refuse. *)
Definition send (matcher : Matcher) (message : UniMessage) : M unit :=
  emit (Send matcher message).

(** [matcher.finish(message)]: send, then end the handler by raising
    [FinishedException]. *)
Definition finish {A} (matcher : Matcher) (message : UniMessage) : M A :=
  send matcher message ;; raise FinishedException.

(** ** The plugin *)

(** The static help text: the triple-quoted literal of the source after
    [.strip()]. *)
Definition _help_str : string :=
  "Gemini Vision 帮助
/gemini <问题> - 与Gemini聊天，可包含以下特殊指令：
- 回复图片 + 问题：分析图片内容（支持多图）、编辑图片
- " +:+ String "034" "清除历史" +:+ String "034" "：清除对话历史记录
/gemini_help - 查看帮助信息".

(** Modelled from the spec: [clear_conversation_history] is a function of
    [core.py], which is not among the sources.  The spec: clear(user_id) →
    bool, true if an entry existed and was removed, false otherwise. *)
Definition clear_history_spec (user_id : string) (h : History) : bool * History :=
  match h !! user_id with
  | Some _ => (true, delete user_id h)
  | None => (false, h)
  end.

Section Plugin.

(** The network: what a GET of each URL comes to during the run. *)
Variable http : string → HttpOutcome.

(** [UniMessage.generate(message=..., event=..., bot=...)], the
    framework's conversion of a referenced message into unified
    segments; it is called inside a [try]. *)
Variable UniMessage_generate : Message → Event → Bot → result Message.

(** [core.chat_with_gemini(prompt, user_id, image_list)] is not among
    the sources: any function that reads and updates the history store
    and returns a [GeminiResponse] or raises. *)
Variable chat_with_gemini_core :
  string → string → list bytes → History → result GeminiResponse * History.

(** [core.clear_conversation_history(user_id)] is not among the sources
    either: any function that updates the history store and returns a
    bool. *)
Variable clear_conversation_history_core : string → History → bool * History.

(** The call of [clear_conversation_history], recorded in the trace. *)
Definition clear_conversation_history (user_id : string) : M bool := λ st,
  let (cleared, h) := clear_conversation_history_core user_id
                        (conversation_history st) in
  (Ok cleared, {| trace := trace st ++ [ClearHistory user_id];
                  conversation_history := h |}).

(** The call of [chat_with_gemini], recorded in the trace. *)
Definition chat_with_gemini (prompt user_id : string) (image_list : list bytes)
    : M GeminiResponse := λ st,
  let (r, h) := chat_with_gemini_core prompt user_id image_list
                  (conversation_history st) in
  (r, {| trace := trace st ++ [ChatWithGemini prompt user_id image_list];
         conversation_history := h |}).

(** [async with session.get(url) as resp] followed by the read of the
    body. *)
Definition session_get (url : string) : M (Z * bytes) :=
  emit (HttpGet url) ;;
  match http url with
  | Response status body => mret (status, body)
  | ClientError e => raise e
  end.

Definition get_image_data_from_url (url : string) : M (option bytes) :=
  try_except
    (logger_info ("获取图像数据: " +:+ url) ;;
     resp ← session_get url ;
     if negb (resp.1 =? 200)%Z then
       logger_error ("无法获取图片数据: " +:+ pretty resp.1) ;;
       mret None
     else mret (Some resp.2))
    (λ e, logger_error ("获取图像数据失败: " +:+ str e) ;; mret None).

(** [segment.a], an [AttributeError] when the object has no such
    attribute (its text stands for Python's, which also names the
    class). *)
Definition getattr {A} (name : string) (a : attr A) : M (option A) :=
  match a with
  | Missing => raise (Exception ("object has no attribute '" +:+ name +:+ "'"))
  | PyNone => mret None
  | Val v => mret (Some v)
  end.

Definition to_image_data (segment : Segment) : M (option bytes) :=
  (* elif isinstance(segment, AlconnaImage): *)
  let elif_AlconnaImage : M (option bytes) :=
    if seg_is_AlconnaImage segment then
      try_except
        (raw ← getattr "raw" (seg_raw segment) ;
         match raw with
         | Some raw => mret (Some raw)
         | None =>
             url ← getattr "url" (seg_url segment) ;
             match url with
             | Some url => get_image_data_from_url url
             | None => mret None
             end
         end)
        (λ e, logger_error ("获取AlconnaImage图像数据失败: " +:+ str e) ;;
              mret None)
    else mret None in
  (* if segment.type == "image" and hasattr(segment, "data"): *)
  match bool_decide (seg_type segment = "image"), seg_data segment with
  | true, Some data =>
      try_except
        (match data !! "url" with
         | Some img_url =>
             logger_info ("从URL提取图片数据: " +:+ img_url) ;;
             get_image_data_from_url img_url
         | None =>
             match seg_raw segment with
             | Val raw => mret (Some raw)
             | _ => mret None
             end
         end)
        (λ e, logger_error ("获取图像数据失败: " +:+ str e) ;; mret None)
  | _, _ => elif_AlconnaImage
  end.

Definition extract_images_from_message (message : Message) : M (list bytes) :=
  let image_list : list bytes := [] in
  if negb (truthy message) then mret image_list
  else
    r ← for_loop message image_list (λ image_list segment,
           img_bytes ← to_image_data segment ;
           if truthy img_bytes
           then mret (image_list ++ option_list img_bytes)
           else mret image_list) ;
    match r.2 with
    | Some e => raise e
    | None => mret r.1
    end.

Definition send_gemini_response (response : GeminiResponse) (msg_id : MsgId)
    : M unit :=
  if negb (success response) then
    finish gemini_command (UniMessage_new (error response))
  else
    let msg := UniMessage_new None in
    let msg := if truthy (text response)
               then msg ++ UniMessage_new (text response) else msg in
    let msg := if truthy (image response)
               then msg ++ UniMessage_image (default [] (image response))
               else msg in
    finish gemini_command (reply msg msg_id).

Definition handle_clear_history (user_id : string) (msg_id : MsgId) : M unit :=
  success ← clear_conversation_history user_id ;
  if success : bool then
    finish gemini_command (reply (UniMessage_new (Some "对话历史已清除")) msg_id)
  else
    finish gemini_command (reply (UniMessage_new (Some "没有找到对话历史")) msg_id).

Definition collect_images (event : Event) (ext : ReplyRecordExtension)
    (msg_id : MsgId) (bot : Bot) : M (list bytes) :=
  let image_list : list bytes := [] in
  let reply := get_reply ext msg_id in
  image_list ←
    match reply with
    | Some reply =>
        let handler (image_list : list bytes) (e : exn) :=
          logger_error ("处理回复消息中的图片出错: " +:+ str e) ;;
          mret image_list in
        try_except
          (uni_reply ← lift (UniMessage_generate (reply_msg reply) event bot) ;
           r ← for_loop uni_reply image_list (λ image_list segment,
                  if seg_is_AlconnaImage segment then
                    img_bytes ← to_image_data segment ;
                    if truthy img_bytes
                    then mret (image_list ++ option_list img_bytes)
                    else mret image_list
                  else mret image_list) ;
           match r.2 with
           | Some e => handler r.1 e
           | None => mret r.1
           end)
          (handler image_list)
    | None => mret image_list
    end ;
  try_except
    (message ← lift (get_message event) ;
     message_images ← extract_images_from_message message ;
     mret (image_list ++ message_images))
    (λ e, logger_error ("处理消息中图片出错: " +:+ str e) ;; mret image_list).

Definition send_processing_message (image_list : list bytes) (msg_id : MsgId)
    : M unit :=
  if truthy image_list && bool_decide (0 < length image_list) then
    send gemini_command
      (reply (UniMessage_new (Some ("正在处理您的请求（包含 "
                +:+ pretty (length image_list) +:+ " 张图片），请稍等...")))
             msg_id)
  else
    send gemini_command
      (reply (UniMessage_new (Some "正在处理您的请求，请稍等...")) msg_id).

Definition process_gemini_request (prompt_text user_id : string)
    (image_list : list bytes) (msg_id : MsgId) : M unit :=
  try_except
    (response ← chat_with_gemini prompt_text user_id image_list ;
     send_gemini_response response msg_id)
    (λ e,
       match e with
       | FinishedException => mret tt
       | Exception _ =>
           logger_error ("处理请求出错: " +:+ str e) ;;
           finish gemini_command
             (UniMessage_new (Some ("处理请求时出错: " +:+ str e)))
       end).

Definition handle_gemini (bot : Bot) (event : Event) (prompt : Match)
    (ext : ReplyRecordExtension) (msg_id : MsgId) (session : Session) : M unit :=
  let user_id := str_id (id1 session) in
  (if negb (match_available prompt) || negb (truthy (match_result prompt))
   then finish gemini_command (reply (UniMessage_new (Some _help_str)) msg_id)
   else mret tt) ;;
  let prompt_text := match_result prompt in
  (if bool_decide (prompt_text ∈ ["清除历史"; "清除对话历史"; "clear"; "exit"])
   then handle_clear_history user_id msg_id
   else mret tt) ;;
  image_list ← collect_images event ext msg_id bot ;
  send_processing_message image_list msg_id ;;
  process_gemini_request prompt_text user_id image_list msg_id.

Definition handle_help : M unit :=
  finish help_command (UniMessage_new (Some _help_str)).

End Plugin.

(** ** The plugin on a platform that may refuse a message *)

(** [matcher.send] hands the message to the chat platform, which delivers
    it or raises (an action failure, a network error).  The functions
    that answer a request are given again over such a platform; where it
    delivers every message they are the functions above. *)
Module Platform.
Section Platform.

(** [platform matcher message] is [None] when the message is delivered,
    and the text of the exception the send raises otherwise. *)
Variable platform : Matcher → UniMessage → option string.

Variable chat_with_gemini_core :
  string → string → list bytes → History → result GeminiResponse * History.

Definition send (matcher : Matcher) (message : UniMessage) : M unit :=
  match platform matcher message with
  | None => emit (Send matcher message)
  | Some text => raise (Exception text)
  end.

Definition finish {A} (matcher : Matcher) (message : UniMessage) : M A :=
  send matcher message ;; raise FinishedException.

Definition send_gemini_response (response : GeminiResponse) (msg_id : MsgId)
    : M unit :=
  if negb (success response) then
    finish gemini_command (UniMessage_new (error response))
  else
    let msg := UniMessage_new None in
    let msg := if truthy (text response)
               then msg ++ UniMessage_new (text response) else msg in
    let msg := if truthy (image response)
               then msg ++ UniMessage_image (default [] (image response))
               else msg in
    finish gemini_command (reply msg msg_id).

Definition process_gemini_request (prompt_text user_id : string)
    (image_list : list bytes) (msg_id : MsgId) : M unit :=
  try_except
    (response ← chat_with_gemini chat_with_gemini_core
                  prompt_text user_id image_list ;
     send_gemini_response response msg_id)
    (λ e,
       match e with
       | FinishedException => mret tt
       | Exception _ =>
           logger_error ("处理请求出错: " +:+ str e) ;;
           finish gemini_command
             (UniMessage_new (Some ("处理请求时出错: " +:+ str e)))
       end).

End Platform.
End Platform.

(** * Vocabulary of the properties *)

(** The state a run starts from when nothing has happened yet. *)
Definition initial_state : State :=
  {| trace := []; conversation_history := ∅ |}.

(** The state after the effects [t] have happened, the history store
    untouched. *)
Definition add_trace (st : State) (t : list Effect) : State :=
  {| trace := trace st ++ t; conversation_history := conversation_history st |}.

(** [runs m r t]: from whatever state, [m] ends in [r] after exactly the
    effects [t], and leaves the history store alone. *)
Definition runs {A} (m : M A) (r : result A) (t : list Effect) : Prop :=
  ∀ st, m st = (r, add_trace st t).

(** The URLs of the HTTP GETs among some effects, in order. *)
Definition http_gets (t : list Effect) : list string :=
  omap (λ e, match e with HttpGet url => Some url | _ => None end) t.

(** The reply ids, the images and the texts of an outgoing message. *)
Definition reply_ids (m : UniMessage) : list MsgId :=
  omap (λ s, match s with Reply id => Some id | _ => None end) m.
Definition images (m : UniMessage) : list bytes :=
  omap (λ s, match s with Image raw => Some raw | _ => None end) m.
Definition texts (m : UniMessage) : list string :=
  omap (λ s, match s with Text t => Some t | _ => None end) m.

(** The phrases of [handle_gemini] that clear the history. *)
Definition clear_history_phrases : list string :=
  ["清除历史"; "清除对话历史"; "clear"; "exit"].

#[export] Instance byte_eq_decision : EqDecision byte := Byte.byte_eq_dec.
#[export] Instance attr_eq_decision {A} `{EqDecision A} : EqDecision (attr A).
Proof. solve_decision. Defined.
#[export] Instance Segment_eq_decision : EqDecision Segment.
Proof. solve_decision. Defined.

Section Vocabulary.

Variable http : string → HttpOutcome.
Variable UniMessage_generate : Message → Event → Bot → result Message.

(** What [get_image_data_from_url] returns for a URL: the body of a
    response with status 200, nothing otherwise. *)
Definition fetched (url : string) : option bytes :=
  match http url with
  | Response status body => if (status =? 200)%Z then Some body else None
  | ClientError _ => None
  end.

(** What one segment adds to an image list: the bytes [to_image_data]
    returns for it, when they pass the [if img_bytes:] test. *)
Definition image_of (segment : Segment) : list bytes :=
  match (to_image_data http segment initial_state).1 with
  | Ok img_bytes => if truthy img_bytes then option_list img_bytes else []
  | Raise _ => []
  end.

(** [to_image_data] resolves the segment to the bytes [b]. *)
Definition resolves_to (segment : Segment) (b : bytes) : Prop :=
  ∀ st, (to_image_data http segment st).1 = Ok (Some b).

(** The test of the first branch of [to_image_data]:
    [segment.type == "image" and hasattr(segment, "data")]. *)
Definition first_branch (segment : Segment) : bool :=
  bool_decide (seg_type segment = "image") && bool_decide (is_Some (seg_data segment)).

(** The segments [to_image_data] looks into for an image: those of its
    first branch and the [AlconnaImage] instances. *)
Definition is_image (segment : Segment) : bool :=
  first_branch segment || seg_is_AlconnaImage segment.

(** The URL the first branch reads: the "url" entry of the data of a
    segment of type "image". *)
Definition data_url (segment : Segment) : option string :=
  if bool_decide (seg_type segment = "image")
  then seg_data segment ≫= (λ data : gmap string string, data !! "url")
  else None.

(** The segment carries the URL [u] that [to_image_data] fetches: in its
    data (first branch), or, for an [AlconnaImage] the first branch does
    not take, in its [url] attribute while [raw] is [None]. *)
Definition fetch_source (segment : Segment) (u : string) : Prop :=
  data_url segment = Some u
  ∨ (first_branch segment = false ∧ seg_is_AlconnaImage segment = true
     ∧ seg_raw segment = PyNone ∧ seg_url segment = Val u).

(** The referenced message as [collect_images] obtains it: none, or the
    conversion of the reply record's message. *)
Definition referenced_message (event : Event) (ext : ReplyRecordExtension)
    (msg_id : MsgId) (bot : Bot) : result Message :=
  match get_reply ext msg_id with
  | Some reply => UniMessage_generate (reply_msg reply) event bot
  | None => Ok []
  end.

(** The images [collect_images] takes from the referenced message and from
    the triggering message. *)
Definition referenced_images (event : Event) (ext : ReplyRecordExtension)
    (msg_id : MsgId) (bot : Bot) : list bytes :=
  match referenced_message event ext msg_id bot with
  | Ok uni_reply =>
      flat_map image_of (filter (λ s, seg_is_AlconnaImage s = true) uni_reply)
  | Raise _ => []
  end.

Definition message_images (event : Event) : list bytes :=
  match get_message event with
  | Ok message => flat_map image_of message
  | Raise _ => []
  end.

(** The effects of [get_image_data_from_url]: an info line, the GET, and
    an error line unless the response has status 200. *)
Definition fetch_effects (url : string) : list Effect :=
  [Log INFO ("获取图像数据: " +:+ url); HttpGet url]
  ++ match http url with
     | Response status body =>
         if (status =? 200)%Z then []
         else [Log ERROR ("无法获取图片数据: " +:+ pretty status)]
     | ClientError e => [Log ERROR ("获取图像数据失败: " +:+ str e)]
     end.

(** The effects of [to_image_data] on one segment. *)
Definition effects_of (segment : Segment) : list Effect :=
  trace (to_image_data http segment initial_state).2.

(** The effects of the two halves of [collect_images]: the fetches of the
    images, or the one log line of the [except] branch. *)
Definition referenced_effects (event : Event) (ext : ReplyRecordExtension)
    (msg_id : MsgId) (bot : Bot) : list Effect :=
  match referenced_message event ext msg_id bot with
  | Ok uni_reply =>
      flat_map effects_of (filter (λ s, seg_is_AlconnaImage s = true) uni_reply)
  | Raise e => [Log ERROR ("处理回复消息中的图片出错: " +:+ str e)]
  end.

Definition message_effects (event : Event) : list Effect :=
  match get_message event with
  | Ok message => flat_map effects_of message
  | Raise e => [Log ERROR ("处理消息中图片出错: " +:+ str e)]
  end.

End Vocabulary.

(** The effects of the image collector: log lines and HTTP GETs. *)
Definition is_io (e : Effect) : bool :=
  match e with
  | Log _ _ | HttpGet _ => true
  | _ => false
  end.


(** ** Concrete inputs *)

Module Examples.

Definition png : bytes := [x89; x50; x4e; x47].
Definition jpg : bytes := [xff; xd8; xff].

(** A small network: one image, one empty body, one missing page, and
    timeouts everywhere else. *)
Definition http (url : string) : HttpOutcome :=
  if bool_decide (url = "https://example.org/cat.png") then Response 200 png
  else if bool_decide (url = "https://example.org/empty.png") then Response 200 []
  else if bool_decide (url = "https://example.org/gone.png") then Response 404 jpg
  else ClientError (Exception "timeout").

(** An adapter segment of type "image" with a "url" entry in its data. *)
Definition url_segment (url : string) : Segment :=
  {| seg_type := "image"; seg_data := Some {[ "url" := url ]};
     seg_raw := Missing; seg_url := Missing; seg_is_AlconnaImage := false |}.

(** The same with raw bytes beside the URL. *)
Definition url_and_raw_segment (url : string) (raw : bytes) : Segment :=
  {| seg_type := "image"; seg_data := Some {[ "url" := url ]};
     seg_raw := Val raw; seg_url := Missing; seg_is_AlconnaImage := false |}.

(** An [AlconnaImage] instance that the first branch does not take and
    that holds its bytes. *)
Definition raw_image (raw : bytes) : Segment :=
  {| seg_type := "Image"; seg_data := None;
     seg_raw := Val raw; seg_url := PyNone; seg_is_AlconnaImage := true |}.

Definition text_segment : Segment :=
  {| seg_type := "text"; seg_data := Some {[ "text" := "describe this" ]};
     seg_raw := Missing; seg_url := Missing; seg_is_AlconnaImage := false |}.

(** The conversion keeps the segments as they are. *)
Definition generate (message : Message) (event : Event) (bot : Bot) : result Message :=
  Ok message.

Definition event (message : Message) : Event := {| get_message := Ok message |}.

Definition no_reply : ReplyRecordExtension := {| get_reply := λ _, None |}.

Definition reply_to (message : Message) : ReplyRecordExtension :=
  {| get_reply := λ _, Some {| reply_msg := message |} |}.

(** An API that answers with a text, and one whose call raises. *)
Definition chat_ok (prompt user_id : string) (image_list : list bytes)
    (h : History) : result GeminiResponse * History :=
  (Ok {| success := true; text := Some "a cat"; image := None; error := None |},
   <[user_id := [(prompt, "a cat")]]> h).

Definition chat_raises (prompt user_id : string) (image_list : list bytes)
    (h : History) : result GeminiResponse * History :=
  (Raise (Exception "quota exceeded"), h).

Definition image_only : GeminiResponse :=
  {| success := true; text := None; image := Some png; error := None |}.

Definition failure : GeminiResponse :=
  {| success := false; text := None; image := None; error := Some "API error" |}.

Definition no_prompt : Match := {| match_available := false; match_result := "" |}.
Definition prompt (text : string) : Match :=
  {| match_available := true; match_result := text |}.

Definition alice : Session := {| id1 := Some "alice" |}.

(** An [AlconnaImage] instance of type "image" whose data has no "url"
    entry: it holds no bytes, only a [url] attribute. *)
Definition shadowed_image (url : string) : Segment :=
  {| seg_type := "image"; seg_data := Some ∅;
     seg_raw := PyNone; seg_url := Val url; seg_is_AlconnaImage := true |}.

(** A conversion that fails, and an event whose message cannot be read. *)
Definition generate_raises (message : Message) (event : Event) (bot : Bot)
    : result Message :=
  Raise (Exception "unsupported segment").

Definition unreadable_event : Event :=
  {| get_message := Raise (Exception "no message") |}.

Definition text_and_image : GeminiResponse :=
  {| success := true; text := Some "a cat"; image := Some png; error := None |}.

Definition empty_success : GeminiResponse :=
  {| success := true; text := Some ""; image := Some []; error := None |}.

(** A stock image that holds both a URL and its bytes: an [AlconnaImage]
    instance of type "image" whose data has the "url" entry. *)
Definition image_with_url_and_raw (url : string) (raw : bytes) : Segment :=
  {| seg_type := "image"; seg_data := Some {[ "url" := url ]};
     seg_raw := Val raw; seg_url := Val url; seg_is_AlconnaImage := true |}.

(** A platform that delivers every message, one that refuses replies
    (messages with a reply segment), and one that refuses everything. *)
Definition delivers (matcher : Matcher) (message : UniMessage) : option string :=
  None.

Definition refuses_replies (matcher : Matcher) (message : UniMessage)
    : option string :=
  match reply_ids message with
  | [] => None
  | _ :: _ => Some "ActionFailed"
  end.

Definition refuses_all (matcher : Matcher) (message : UniMessage) : option string :=
  Some "NetworkError".


End Examples.

(** * Properties *)

(** ** Runs and their traces *)

Lemma add_trace_nil st : add_trace st [] = st.
Proof. destruct st as [t h]. unfold add_trace; simpl. by rewrite app_nil_r. Qed.

Lemma add_trace_app st t1 t2 :
  add_trace (add_trace st t1) t2 = add_trace st (t1 ++ t2).
Proof. unfold add_trace; simpl. by rewrite app_assoc. Qed.

Section RunLemmas.
Context {A B : Type}.

Lemma runs_ret (a : A) : runs (mret a) (Ok a) [].
Proof. intros st. by rewrite add_trace_nil. Qed.

Lemma runs_raise (e : exn) : runs (raise e : M A) (Raise e) [].
Proof. intros st. by rewrite add_trace_nil. Qed.

Lemma runs_lift (r : result A) : runs (lift r) r [].
Proof. intros st. by rewrite add_trace_nil. Qed.

Lemma runs_bind (m : M A) (f : A → M B) a t1 r t2 :
  runs m (Ok a) t1 → runs (f a) r t2 → runs (m ≫= f) r (t1 ++ t2).
Proof.
  intros Hm Hf st. unfold mbind, M_bind. rewrite Hm, Hf.
  by rewrite add_trace_app.
Qed.

Lemma runs_bind_raise (m : M A) (f : A → M B) e t :
  runs m (Raise e) t → runs (m ≫= f) (Raise e) t.
Proof. intros Hm st. unfold mbind, M_bind. by rewrite Hm. Qed.

Lemma runs_try_ok (m : M A) (h : exn → M A) a t :
  runs m (Ok a) t → runs (try_except m h) (Ok a) t.
Proof. intros Hm st. unfold try_except. by rewrite Hm. Qed.

Lemma runs_try_raise (m : M A) (h : exn → M A) e t1 r t2 :
  runs m (Raise e) t1 → runs (h e) r t2 → runs (try_except m h) r (t1 ++ t2).
Proof.
  intros Hm Hh st. unfold try_except. rewrite Hm, Hh.
  by rewrite add_trace_app.
Qed.

End RunLemmas.

Lemma bind_ok {A B} (m : M A) (f : A → M B) st a st' :
  m st = (Ok a, st') → (m ≫= f) st = f a st'.
Proof. intros H. unfold mbind, M_bind. by rewrite H. Qed.

Lemma bind_raise {A B} (m : M A) (f : A → M B) st e st' :
  m st = (Raise e, st') → (m ≫= f) st = (Raise e, st').
Proof. intros H. unfold mbind, M_bind. by rewrite H. Qed.

Lemma runs_emit (e : Effect) : runs (emit e) (Ok tt) [e].
Proof. by intros st. Qed.

Lemma runs_finish {A} (matcher : Matcher) (message : UniMessage) :
  runs (finish matcher message : M A) (Raise FinishedException) [Send matcher message].
Proof. by intros st. Qed.

(** Step through a computation whose control flow is already decided. *)
Ltac run_steps :=
  repeat first
    [ apply runs_ret | apply runs_raise | apply runs_lift | apply runs_emit
    | apply runs_finish
    | eapply runs_bind; [solve [run_steps] |]
    | eapply runs_bind_raise; solve [run_steps]
    | eapply runs_try_ok; solve [run_steps]
    | eapply runs_try_raise; [solve [run_steps] |] ].

(** [∃ o t, runs m (Ok o) t ∧ _] for a computation that fetches nothing. *)
Ltac quiet_run := eexists _, _; split; [ run_steps | by left ].

Lemma flat_map_filter {A B} (g : A → list B) (keep : A → bool) l :
  flat_map (λ x, if keep x then g x else []) l
  = flat_map g (filter (λ x, keep x = true) l).
Proof.
  induction l as [|x l IH]; [done|]. simpl. rewrite IH.
  rewrite filter_cons. destruct (keep x) eqn:E.
  - by rewrite decide_True.
  - by rewrite decide_False.
Qed.

(** The loop of the two collectors: when each turn appends what [g] says
    of its element, the loop appends what [g] says of them all, and ends
    without an exception. *)
Lemma for_loop_runs {A} (g : A → list bytes)
    (body : list bytes → A → M (list bytes)) :
  (∀ acc x, ∃ t, runs (body acc x) (Ok (acc ++ g x)) t) →
  ∀ l acc, ∃ t, runs (for_loop l acc body) (Ok (acc ++ flat_map g l, None)) t.
Proof.
  intros Hbody l. induction l as [|x l IH]; intros acc; simpl.
  - exists []. rewrite app_nil_r. apply (runs_ret (acc, None)).
  - destruct (Hbody acc x) as [t1 H1]. destruct (IH (acc ++ g x)) as [t2 H2].
    exists (t1 ++ t2). intros st. rewrite H1, H2.
    by rewrite add_trace_app, app_assoc.
Qed.

(** ** The image collector *)

Section ImageCollector.

Variable http : string → HttpOutcome.
Variable UniMessage_generate : Message → Event → Bot → result Message.

(** A fetch never raises: it performs one GET and returns [fetched]. *)
Lemma get_image_data_from_url_runs url :
  ∃ t, runs (get_image_data_from_url http url) (Ok (fetched http url)) t
       ∧ http_gets t = [url].
Proof.
  unfold get_image_data_from_url, fetched, session_get, logger_info, logger_error.
  destruct (http url) as [status body | e] eqn:E.
  - destruct (status =? 200)%Z eqn:E200.
    + eexists. split.
      { eapply runs_try_ok. eapply runs_bind; [apply runs_emit|].
        eapply runs_bind; [ eapply runs_bind; [apply runs_emit| apply runs_ret] |].
        simpl. rewrite E200. simpl. apply runs_ret. }
      reflexivity.
    + eexists. split.
      { eapply runs_try_ok. eapply runs_bind; [apply runs_emit|].
        eapply runs_bind; [ eapply runs_bind; [apply runs_emit| apply runs_ret] |].
        simpl. rewrite E200. simpl. run_steps. }
      reflexivity.
  - eexists. split.
    { eapply runs_try_raise.
      - eapply runs_bind; [apply runs_emit|]. eapply runs_bind_raise.
        eapply runs_bind; [apply runs_emit| apply runs_raise].
      - run_steps. }
    reflexivity.
Qed.

Lemma fetched_non_200 u status body :
  http u = Response status body → status ≠ 200%Z → fetched http u = None.
Proof.
  intros E H. unfold fetched. rewrite E.
  by destruct (Z.eqb_spec status 200).
Qed.

(** [to_image_data] never raises; it fetches at most once, a URL the
    segment carries, and then returns what the fetch returned. *)
Lemma to_image_data_runs segment :
  ∃ o t, runs (to_image_data http segment) (Ok o) t
       ∧ (http_gets t = []
          ∨ ∃ u, http_gets t = [u] ∧ o = fetched http u ∧ fetch_source segment u).
Proof.
  unfold fetch_source, data_url, first_branch, to_image_data, logger_info, logger_error.
  destruct (bool_decide (seg_type segment = "image")) eqn:Etype,
           (seg_data segment) as [data|] eqn:Edata.
  1: { destruct (data !! "url") as [u|] eqn:Eurl.
       - destruct (get_image_data_from_url_runs u) as (t & Ht & Hu).
         eexists _, _. split.
         + eapply runs_try_ok. eapply runs_bind; [apply runs_emit | apply Ht].
         + right. exists u. simpl. rewrite Hu. auto.
       - destruct (seg_raw segment); quiet_run. }
  all: destruct (seg_is_AlconnaImage segment) eqn:Ealc; [| quiet_run ..].
  all: destruct (seg_raw segment) eqn:Eraw; simpl; [ quiet_run | | quiet_run ].
  all: destruct (seg_url segment) as [| |u] eqn:Esurl; simpl; [ quiet_run .. |].
  all: destruct (get_image_data_from_url_runs u) as (t & Ht & Hu);
    eexists _, _; (split; [ eapply runs_try_ok, runs_bind;
       [apply runs_ret | simpl; eapply runs_bind; [apply runs_ret | apply Ht]] |]);
    right; exists u; simpl; rewrite Hu; auto 10.
Qed.

Lemma to_image_data_fetch segment st r st' t u :
  to_image_data http segment st = (r, st') →
  trace st' = trace st ++ t →
  u ∈ http_gets t →
  r = Ok (fetched http u) ∧ fetch_source segment u.
Proof.
  intros Hrun Ht Hu.
  destruct (to_image_data_runs segment) as (o & t0 & Hruns & Hgets).
  rewrite Hruns in Hrun. injection Hrun as <- <-. simpl in Ht.
  apply app_inv_head in Ht as <-.
  destruct Hgets as [Hnil | (u' & Hu' & -> & Hsrc)].
  - rewrite Hnil in Hu. by apply elem_of_nil in Hu.
  - rewrite Hu' in Hu. by apply list_elem_of_singleton in Hu as ->.
Qed.

Lemma image_of_runs segment o t :
  runs (to_image_data http segment) (Ok o) t →
  image_of http segment = if truthy o then option_list o else [].
Proof. intros H. unfold image_of. by rewrite H. Qed.

(** [image_of] reads the value of [to_image_data] at any state. *)
Lemma image_of_value segment st :
  image_of http segment
  = match (to_image_data http segment st).1 with
    | Ok img_bytes => if truthy img_bytes then option_list img_bytes else []
    | Raise _ => []
    end.
Proof.
  destruct (to_image_data_runs segment) as (o & t & Hruns & _).
  by rewrite (image_of_runs _ _ _ Hruns), Hruns.
Qed.

Lemma image_of_not_image segment :
  is_image segment = false → image_of http segment = [].
Proof.
  unfold is_image, first_branch, image_of, to_image_data. intros H.
  apply orb_false_iff in H as [H1 ->].
  destruct (bool_decide (seg_type segment = "image")); [|done].
  by destruct (seg_data segment).
Qed.

Lemma image_of_resolved segment b :
  resolves_to http segment b → b ≠ [] → image_of http segment = [b].
Proof. intros H Hb. unfold image_of. rewrite H. by destruct b. Qed.

Lemma image_of_nonempty segment : Forall (λ b, b ≠ []) (image_of http segment).
Proof.
  unfold image_of.
  destruct ((to_image_data http segment initial_state).1) as [[[|x b]|]|];
    simpl; auto.
Qed.

Lemma flat_map_image_of_nonempty segments :
  Forall (λ b, b ≠ []) (flat_map (image_of http) segments).
Proof.
  induction segments as [|s segments IH]; simpl; [done|].
  apply Forall_app. split; [apply image_of_nonempty | done].
Qed.

Lemma flat_map_resolved segments collected :
  Forall2 (λ s b, resolves_to http s b ∧ b ≠ []) segments collected →
  flat_map (image_of http) segments = collected.
Proof.
  induction 1 as [|s b segments collected [Hr Hb] _ IH]; [done|].
  simpl. by rewrite (image_of_resolved _ _ Hr Hb), IH.
Qed.

Lemma flat_map_images_only segments :
  flat_map (image_of http) segments
  = flat_map (image_of http) (filter (λ s, is_image s = true) segments).
Proof.
  rewrite <- flat_map_filter. induction segments as [|s segments IH]; [done|].
  simpl. rewrite IH. destruct (is_image s) eqn:E; [done|].
  by rewrite (image_of_not_image _ E).
Qed.

Lemma flat_map_omit segment segments :
  image_of http segment = [] →
  flat_map (image_of http) (filter (λ s, s ≠ segment) segments)
  = flat_map (image_of http) segments.
Proof.
  intros H. induction segments as [|s segments IH]; [done|].
  rewrite filter_cons. destruct (decide (s ≠ segment)) as [Hne|Heq]; simpl.
  - by rewrite IH.
  - apply dec_stable in Heq as ->. by rewrite H, IH.
Qed.

(** One turn of either loop. *)
Lemma append_image_runs acc segment :
  ∃ t, runs (img_bytes ← to_image_data http segment ;
             if truthy img_bytes
             then mret (acc ++ option_list img_bytes)
             else mret acc)
            (Ok (acc ++ image_of http segment)) t.
Proof.
  destruct (to_image_data_runs segment) as (o & t & Ht & _).
  exists (t ++ []). eapply runs_bind; [exact Ht|].
  rewrite (image_of_runs _ _ _ Ht).
  destruct (truthy o); [apply runs_ret|]. rewrite app_nil_r. apply runs_ret.
Qed.

Lemma extract_images_from_message_runs message :
  ∃ t, runs (extract_images_from_message http message)
            (Ok (flat_map (image_of http) message)) t.
Proof.
  unfold extract_images_from_message.
  destruct message as [|segment message]; [exists []; apply runs_ret|].
  cbn [truthy truthy_list negb].
  destruct (for_loop_runs (image_of http) _ (λ acc x, append_image_runs acc x)
              (segment :: message) []) as [t Ht].
  exists (t ++ []). eapply runs_bind; [exact Ht|]. apply runs_ret.
Qed.

Lemma extract_images_from_message_value message st :
  (extract_images_from_message http message st).1
  = Ok (flat_map (image_of http) message).
Proof. by destruct (extract_images_from_message_runs message) as [t ->]. Qed.

Lemma collect_images_runs event ext msg_id bot :
  ∃ t, runs (collect_images http UniMessage_generate event ext msg_id bot)
            (Ok (referenced_images http UniMessage_generate event ext msg_id bot
                 ++ message_images http event)) t.
Proof.
  unfold collect_images, referenced_images, referenced_message, message_images.
  assert (∀ image_list : list bytes, ∃ t,
    runs (try_except
            (message ← lift (get_message event) ;
             message_images ← extract_images_from_message http message ;
             mret (image_list ++ message_images))
            (λ e, logger_error ("处理消息中图片出错: " +:+ str e) ;; mret image_list))
         (Ok (image_list ++ match get_message event with
                            | Ok message => flat_map (image_of http) message
                            | Raise _ => []
                            end)) t) as Hmsg.
  { intros image_list. destruct (get_message event) as [message|e].
    - destruct (extract_images_from_message_runs message) as [t Ht].
      eexists. eapply runs_try_ok.
      eapply runs_bind; [apply runs_lift|].
      eapply runs_bind; [exact Ht | apply runs_ret].
    - eexists. rewrite app_nil_r. eapply runs_try_raise.
      + eapply runs_bind_raise, runs_lift.
      + run_steps. }
  destruct (get_reply ext msg_id) as [reply|].
  - destruct (UniMessage_generate (reply_msg reply) event bot) as [uni_reply|e].
    + assert (∀ (acc : list bytes) (x : Segment), ∃ t,
        runs (if seg_is_AlconnaImage x then
                img_bytes ← to_image_data http x ;
                if truthy img_bytes
                then mret (acc ++ option_list img_bytes)
                else mret acc
              else mret acc)
             (Ok (acc ++ if seg_is_AlconnaImage x then image_of http x else []))
             t) as Hbody.
      { intros acc x. destruct (seg_is_AlconnaImage x).
        - apply append_image_runs.
        - exists []. rewrite app_nil_r. apply runs_ret. }
      destruct (for_loop_runs _ _ Hbody uni_reply []) as [t1 H1].
      rewrite flat_map_filter in H1. simpl in H1.
      destruct (Hmsg (flat_map (image_of http)
                  (filter (λ s, seg_is_AlconnaImage s = true) uni_reply))) as [t2 H2].
      eexists. eapply runs_bind; [|exact H2].
      eapply runs_try_ok. eapply runs_bind; [apply runs_lift|].
      eapply runs_bind; [exact H1|]. apply runs_ret.
    + destruct (Hmsg []) as [t2 H2].
      eexists. eapply runs_bind; [|exact H2].
      eapply runs_try_raise; [eapply runs_bind_raise, runs_lift|].
      run_steps.
  - destruct (Hmsg []) as [t2 H2].
    eexists. eapply runs_bind; [apply runs_ret | exact H2].
Qed.

Lemma collect_images_value event ext msg_id bot st :
  (collect_images http UniMessage_generate event ext msg_id bot st).1
  = Ok (referenced_images http UniMessage_generate event ext msg_id bot
        ++ message_images http event).
Proof. by destruct (collect_images_runs event ext msg_id bot) as [t ->]. Qed.

(** A segment that adds nothing can be left out of the messages without
    changing what the collectors return. *)
Lemma omitted segment :
  image_of http segment = [] →
  (∀ message st,
     (extract_images_from_message http message st).1
     = (extract_images_from_message http (filter (λ s, s ≠ segment) message) st).1)
  ∧ (∀ event ext msg_id bot uni_reply message st,
       referenced_message UniMessage_generate event ext msg_id bot = Ok uni_reply →
       get_message event = Ok message →
       ∃ l_ref l_msg,
         (extract_images_from_message http
            (filter (λ s, s ≠ segment)
               (filter (λ s, seg_is_AlconnaImage s = true) uni_reply)) st).1 = Ok l_ref
         ∧ (extract_images_from_message http
              (filter (λ s, s ≠ segment) message) st).1 = Ok l_msg
         ∧ (collect_images http UniMessage_generate event ext msg_id bot st).1
           = Ok (l_ref ++ l_msg)).
Proof.
  intros Himg. split.
  - intros message st. rewrite !extract_images_from_message_value.
    by rewrite flat_map_omit.
  - intros event ext msg_id bot uni_reply message st Href Hmsg.
    eexists _, _. rewrite !extract_images_from_message_value.
    split; [done|]. split; [done|].
    rewrite collect_images_value, !flat_map_omit by done.
    unfold referenced_images, message_images. by rewrite Href, Hmsg.
Qed.

(** C1 (amended).  When the referenced message converts to [uni_reply] and
    the triggering message is [message], and every [AlconnaImage] of the
    former and every image segment of the latter resolves to NON-EMPTY
    bytes, [collect_images] returns exactly those buffers: the referenced
    message's first, then the triggering message's, each group in source
    order; the list has N + M entries. *)
Theorem collect_images_referenced_first
    event ext msg_id bot uni_reply message referenced_bytes message_bytes st :
  referenced_message UniMessage_generate event ext msg_id bot = Ok uni_reply →
  get_message event = Ok message →
  Forall2 (λ s b, resolves_to http s b ∧ b ≠ [])
          (filter (λ s, seg_is_AlconnaImage s = true) uni_reply) referenced_bytes →
  Forall2 (λ s b, resolves_to http s b ∧ b ≠ [])
          (filter (λ s, is_image s = true) message) message_bytes →
  (collect_images http UniMessage_generate event ext msg_id bot st).1
    = Ok (referenced_bytes ++ message_bytes)
  ∧ length (referenced_bytes ++ message_bytes)
    = length (filter (λ s, is_image s = true) message)
      + length (filter (λ s, seg_is_AlconnaImage s = true) uni_reply).
Proof.
  intros Href Hmsg Hr Hm. split.
  - rewrite collect_images_value. f_equal.
    unfold referenced_images, message_images. rewrite Href, Hmsg. f_equal.
    + by apply flat_map_resolved.
    + rewrite flat_map_images_only. by apply flat_map_resolved.
  - rewrite length_app, (Forall2_length _ _ _ Hr), (Forall2_length _ _ _ Hm). lia.
Qed.

(** C5.  When the run of [to_image_data] on a segment performs a GET and
    the response's status is not 200, [to_image_data] returns [None]; the
    lists [extract_images_from_message] and [collect_images] return are
    those of the messages with the segment left out; and none of the four
    image-collection functions ever raises. *)
Theorem non_200_fetch_yields_no_image segment st r st' t u status body :
  to_image_data http segment st = (r, st') →
  trace st' = trace st ++ t →
  u ∈ http_gets t →
  http u = Response status body →
  status ≠ 200%Z →
  r = Ok None
  ∧ (∀ message st0,
       (extract_images_from_message http message st0).1
       = (extract_images_from_message http (filter (λ s, s ≠ segment) message) st0).1)
  ∧ (∀ event ext msg_id bot uni_reply message st0,
       referenced_message UniMessage_generate event ext msg_id bot = Ok uni_reply →
       get_message event = Ok message →
       ∃ l_ref l_msg,
         (extract_images_from_message http
            (filter (λ s, s ≠ segment)
               (filter (λ s, seg_is_AlconnaImage s = true) uni_reply)) st0).1 = Ok l_ref
         ∧ (extract_images_from_message http
              (filter (λ s, s ≠ segment) message) st0).1 = Ok l_msg
         ∧ (collect_images http UniMessage_generate event ext msg_id bot st0).1
           = Ok (l_ref ++ l_msg))
  ∧ (∀ url st0, ∃ v, (get_image_data_from_url http url st0).1 = Ok v)
  ∧ (∀ s st0, ∃ v, (to_image_data http s st0).1 = Ok v)
  ∧ (∀ message st0, ∃ v, (extract_images_from_message http message st0).1 = Ok v)
  ∧ (∀ event ext msg_id bot st0, ∃ v,
       (collect_images http UniMessage_generate event ext msg_id bot st0).1 = Ok v).
Proof.
  intros Hrun Ht Hu Hresp Hstatus.
  assert (r = Ok None) as ->.
  { destruct (to_image_data_fetch _ _ _ _ _ _ Hrun Ht Hu) as [-> _].
    by rewrite (fetched_non_200 _ _ _ Hresp Hstatus). }
  assert (image_of http segment = []) as Himg.
  { by rewrite (image_of_value segment st), Hrun. }
  destruct (omitted segment Himg) as [Hextract Hcollect].
  split; [done|]. split; [exact Hextract|]. split; [exact Hcollect|].
  repeat split.
  - intros url st0. destruct (get_image_data_from_url_runs url) as (t1 & -> & _). eauto.
  - intros s st0. destruct (to_image_data_runs s) as (o & t1 & -> & _). eauto.
  - intros message st0. rewrite extract_images_from_message_value. eauto.
  - intros event ext msg_id bot st0. rewrite collect_images_value. eauto.
Qed.

(** C9.  [extract_images_from_message] and [collect_images] always return
    a list, and every buffer in it is non-empty; a segment that
    [to_image_data] resolves to empty bytes (a 200 response with an empty
    body, an empty [raw]) is left out like one that resolves to [None]. *)
Theorem image_lists_hold_no_empty_buffer event ext msg_id bot message st :
  (∃ l, (extract_images_from_message http message st).1 = Ok l
        ∧ Forall (λ b, b ≠ []) l)
  ∧ (∃ l, (collect_images http UniMessage_generate event ext msg_id bot st).1 = Ok l
          ∧ Forall (λ b, b ≠ []) l)
  ∧ (∀ segment,
       (to_image_data http segment st).1 = Ok (Some []) →
       (extract_images_from_message http message st).1
       = (extract_images_from_message http (filter (λ s, s ≠ segment) message) st).1
       ∧ ∀ uni_reply trigger,
           referenced_message UniMessage_generate event ext msg_id bot = Ok uni_reply →
           get_message event = Ok trigger →
           ∃ l_ref l_msg,
             (extract_images_from_message http
                (filter (λ s, s ≠ segment)
                   (filter (λ s, seg_is_AlconnaImage s = true) uni_reply)) st).1
             = Ok l_ref
             ∧ (extract_images_from_message http
                  (filter (λ s, s ≠ segment) trigger) st).1 = Ok l_msg
             ∧ (collect_images http UniMessage_generate event ext msg_id bot st).1
               = Ok (l_ref ++ l_msg)).
Proof.
  split; [|split].
  - rewrite extract_images_from_message_value. eexists. split; [done|].
    apply flat_map_image_of_nonempty.
  - rewrite collect_images_value. eexists. split; [done|].
    unfold referenced_images, message_images. apply Forall_app. split.
    + destruct (referenced_message _ _ _ _ _); [|done].
      apply flat_map_image_of_nonempty.
    + destruct (get_message event); [|done]. apply flat_map_image_of_nonempty.
  - intros segment H.
    assert (image_of http segment = []) as Himg
      by (by rewrite (image_of_value segment st), H).
    destruct (omitted segment Himg) as [Hextract Hcollect].
    split; [apply Hextract|]. intros uni_reply trigger. apply Hcollect.
Qed.

End ImageCollector.

(** ** The request handler *)

Section Handler.

Variable http : string → HttpOutcome.
Variable UniMessage_generate : Message → Event → Bot → result Message.
Variable chat_with_gemini_core :
  string → string → list bytes → History → result GeminiResponse * History.
Variable clear_conversation_history_core : string → History → bool * History.

Lemma handle_clear_history_run user_id msg_id st cleared h :
  clear_conversation_history_core user_id (conversation_history st) = (cleared, h) →
  handle_clear_history clear_conversation_history_core user_id msg_id st
  = (Raise FinishedException,
     {| trace := trace st
                 ++ [ClearHistory user_id;
                     Send gemini_command
                       [Text (if cleared then "对话历史已清除" else "没有找到对话历史");
                        Reply msg_id]];
        conversation_history := h |}).
Proof.
  intros Hcore.
  unfold handle_clear_history, clear_conversation_history, mbind, M_bind.
  rewrite Hcore.
  destruct cleared; rewrite runs_finish; unfold add_trace; simpl;
    by rewrite <- app_assoc.
Qed.

(** The message [send_gemini_response] finishes with. *)
Lemma send_gemini_response_run response msg_id st :
  ∃ m, send_gemini_response response msg_id st
       = (Raise FinishedException, add_trace st [Send gemini_command m])
     ∧ reply_ids m = (if success response then [msg_id] else []).
Proof.
  unfold send_gemini_response.
  destruct (success response); simpl.
  - eexists. split; [reflexivity|].
    unfold reply, reply_ids. rewrite omap_app. simpl.
    destruct (truthy (text response)), (truthy (image response)); simpl;
      by destruct (text response).
  - eexists. split; [reflexivity|]. by destruct (error response).
Qed.

(** The spec's clear operation answers whether an entry existed and leaves
    none behind. *)
Lemma clear_history_spec_removes user_id h :
  (clear_history_spec user_id h).1 = bool_decide (is_Some (h !! user_id))
  ∧ (clear_history_spec user_id h).2 !! user_id = None.
Proof.
  unfold clear_history_spec. destruct (h !! user_id) as [turns|] eqn:E; simpl.
  - split; [done | apply lookup_delete_eq].
  - by split.
Qed.

(** The [/gemini_help] command sends the help text as it is, without a
    reply segment. *)
Lemma handle_help_run st :
  handle_help st
  = (Raise FinishedException, add_trace st [Send help_command [Text _help_str]]).
Proof. reflexivity. Qed.

(** C3.  When the prompt argument is absent or empty, [handle_gemini] ends
    at its first [finish]: the one effect of the run is the reply with
    the static help text; the clear-history check, the acknowledgement
    and the API call are never reached, and the history store is as it
    was. *)
Theorem handle_gemini_help bot event prompt ext msg_id session st :
  match_available prompt = false ∨ match_result prompt = "" →
  handle_gemini http UniMessage_generate chat_with_gemini_core
      clear_conversation_history_core bot event prompt ext msg_id session st
  = (Raise FinishedException,
     add_trace st [Send gemini_command [Text _help_str; Reply msg_id]]).
Proof.
  intros H. unfold handle_gemini.
  replace (negb (match_available prompt) || negb (truthy (match_result prompt)))
    with true by (destruct H as [-> | ->]; [done | by rewrite orb_true_r]).
  done.
Qed.

(** C4.  When the prompt is one of the clear-history phrases,
    [handle_gemini] calls [clear_conversation_history] with
    [str(session.id1)] and ends at the [finish] of
    [handle_clear_history]: the effects of the run are that call and the
    reply, the success text when the call returned [True] and the
    not-found text when it returned [False]; no acknowledgement is sent
    and the API is not called. *)
Theorem handle_gemini_clear_history
    bot event prompt ext msg_id session st cleared h :
  match_available prompt = true →
  match_result prompt ∈ clear_history_phrases →
  clear_conversation_history_core (str_id (id1 session)) (conversation_history st)
    = (cleared, h) →
  handle_gemini http UniMessage_generate chat_with_gemini_core
      clear_conversation_history_core bot event prompt ext msg_id session st
  = (Raise FinishedException,
     {| trace := trace st
                 ++ [ClearHistory (str_id (id1 session));
                     Send gemini_command
                       [Text (if cleared then "对话历史已清除" else "没有找到对话历史");
                        Reply msg_id]];
        conversation_history := h |}).
Proof.
  intros Hav Hin Hcore. unfold handle_gemini. rewrite Hav.
  assert (truthy (match_result prompt) = true) as ->.
  { unfold clear_history_phrases in Hin.
    rewrite !elem_of_cons, elem_of_nil in Hin.
    by destruct Hin as [-> | [-> | [-> | [-> | []]]]]. }
  rewrite (bool_decide_eq_true_2 _ Hin).
  unfold mbind at 1 2, M_bind at 1 2. simpl.
  by rewrite (handle_clear_history_run _ _ _ _ _ Hcore).
Qed.

(** C6.  For a successful response with a non-empty image and no text,
    [send_gemini_response] finishes with one message that holds exactly
    one image, the response's, and no text. *)
Theorem send_gemini_response_image_only response msg_id st b :
  success response = true →
  image response = Some b →
  b ≠ [] →
  text response = None ∨ text response = Some "" →
  ∃ msg,
    send_gemini_response response msg_id st
    = (Raise FinishedException, add_trace st [Send gemini_command msg])
    ∧ images msg = [b] ∧ texts msg = [].
Proof.
  intros Hs Hi Hb Ht. exists [Image b; Reply msg_id]. split; [|done].
  unfold send_gemini_response. rewrite Hs, Hi.
  destruct b as [|x b]; [done|].
  by destruct Ht as [-> | ->].
Qed.

(** C7.  For a response that is not a success, [send_gemini_response]
    finishes with one message built from the error string alone: its only
    text is the error, it holds no image and no reply segment, and nothing
    else is sent. *)
Theorem send_gemini_response_failure response msg_id st :
  success response = false →
  send_gemini_response response msg_id st
  = (Raise FinishedException,
     add_trace st [Send gemini_command (UniMessage_new (error response))])
  ∧ texts (UniMessage_new (error response)) = option_list (error response)
  ∧ images (UniMessage_new (error response)) = []
  ∧ reply_ids (UniMessage_new (error response)) = [].
Proof.
  intros Hs. unfold send_gemini_response. rewrite Hs.
  split; [done|]. by destruct (error response).
Qed.

(** The message [send_gemini_response] builds is the same on every
    platform. *)
Lemma send_gemini_response_message platform response msg_id :
  ∃ m,
    runs (send_gemini_response response msg_id) (Raise FinishedException)
         [Send gemini_command m]
    ∧ Platform.send_gemini_response platform response msg_id
      = Platform.finish platform gemini_command m.
Proof.
  unfold send_gemini_response, Platform.send_gemini_response.
  destruct (negb (success response)); eexists; (split; [apply runs_finish | done]).
Qed.

(** A [finish] on a platform that may refuse. *)
Lemma platform_finish_run {A} platform matcher message st :
  (Platform.finish platform matcher message : M A) st
  = match platform matcher message with
    | None => (Raise FinishedException, add_trace st [Send matcher message])
    | Some refused => (Raise (Exception refused), st)
    end.
Proof.
  unfold Platform.finish, Platform.send, mbind, M_bind.
  by destruct (platform matcher message).
Qed.

(** C8 (amended).  What [process_gemini_request] does, on a platform that
    may refuse a message, with the outcome of the API call.  A
    [FinishedException] from the [try] body, of the call itself or of
    the [finish] that delivered the response, is swallowed: the function
    returns and no error message is sent.  Any other exception from the
    body, of the call or of the send of the response, is caught and
    logged, and reported with a [finish] that stands outside any [try]:
    when the report is delivered the [FinishedException] of that
    [finish] leaves the function, and when it is refused the exception
    of the send does. *)
Theorem process_gemini_request_exceptions
    platform prompt_text user_id image_list msg_id st r h :
  chat_with_gemini_core prompt_text user_id image_list (conversation_history st)
    = (r, h) →
  let run := Platform.process_gemini_request platform chat_with_gemini_core
               prompt_text user_id image_list msg_id st in
  let st1 := {| trace := trace st ++ [ChatWithGemini prompt_text user_id image_list];
                conversation_history := h |} in
  let reported (text : string) :=
    let st2 := add_trace st1 [Log ERROR ("处理请求出错: " +:+ text)] in
    match platform gemini_command [Text ("处理请求时出错: " +:+ text)] with
    | None =>
        run = (Raise FinishedException,
               add_trace st2
                 [Send gemini_command [Text ("处理请求时出错: " +:+ text)]])
    | Some refused => run = (Raise (Exception refused), st2)
    end in
  match r with
  | Ok response =>
      ∃ message,
        send_gemini_response response msg_id st1
        = (Raise FinishedException, add_trace st1 [Send gemini_command message])
        ∧ match platform gemini_command message with
          | None => run = (Ok tt, add_trace st1 [Send gemini_command message])
          | Some text => reported text
          end
  | Raise FinishedException => run = (Ok tt, st1)
  | Raise (Exception text) => reported text
  end.
Proof.
  intros Hcore. cbv zeta.
  assert (chat_with_gemini chat_with_gemini_core prompt_text user_id image_list st
          = (r, {| trace := trace st ++ [ChatWithGemini prompt_text user_id image_list];
                   conversation_history := h |})) as Hchat
    by (unfold chat_with_gemini; by rewrite Hcore).
  assert (∀ text s,
    (logger_error ("处理请求出错: " +:+ text) ;;
     Platform.finish platform gemini_command
       (UniMessage_new (Some ("处理请求时出错: " +:+ text))) : M unit) s
    = match platform gemini_command [Text ("处理请求时出错: " +:+ text)] with
      | None =>
          (Raise FinishedException,
           add_trace (add_trace s [Log ERROR ("处理请求出错: " +:+ text)])
             [Send gemini_command [Text ("处理请求时出错: " +:+ text)]])
      | Some refused =>
          (Raise (Exception refused),
           add_trace s [Log ERROR ("处理请求出错: " +:+ text)])
      end) as Hreport.
  { intros text s. erewrite bind_ok; [|apply runs_emit]. apply platform_finish_run. }
  unfold Platform.process_gemini_request, try_except.
  destruct r as [response | [ | text]].
  - rewrite (bind_ok _ _ _ _ _ Hchat).
    destruct (send_gemini_response_message platform response msg_id)
      as (m & Hm & ->).
    exists m. split; [apply Hm|]. rewrite platform_finish_run.
    destruct (platform gemini_command m) as [text|]; [|done].
    simpl str. rewrite Hreport.
    by destruct (platform gemini_command [Text ("处理请求时出错: " +:+ text)]).
  - by rewrite (bind_raise _ _ _ _ _ Hchat).
  - rewrite (bind_raise _ _ _ _ _ Hchat). simpl str. rewrite Hreport.
    by destruct (platform gemini_command [Text ("处理请求时出错: " +:+ text)]).
Qed.

(** Where the platform delivers every message, the functions over it are
    the functions of the plugin. *)
Lemma platform_delivers prompt_text user_id image_list msg_id response :
  Platform.process_gemini_request (λ _ _, None) chat_with_gemini_core
    prompt_text user_id image_list msg_id
  = process_gemini_request chat_with_gemini_core
      prompt_text user_id image_list msg_id
  ∧ Platform.send_gemini_response (λ _ _, None) response msg_id
    = send_gemini_response response msg_id.
Proof. done. Qed.

(** C10.  The error message of a failed response carries no reply segment,
    while the help reply, the clear-history replies, the acknowledgement
    and the reply to a successful response each carry exactly one, with
    the triggering message's id. *)
Theorem replies_are_addressed_except_errors
    bot event prompt ext msg_id session response user_id image_list st :
  match_available prompt = false ∨ match_result prompt = "" →
  (∃ m, send_gemini_response response msg_id st
        = (Raise FinishedException, add_trace st [Send gemini_command m])
      ∧ reply_ids m = (if success response then [msg_id] else []))
  ∧ (∃ m, handle_gemini http UniMessage_generate chat_with_gemini_core
            clear_conversation_history_core bot event prompt ext msg_id session st
          = (Raise FinishedException, add_trace st [Send gemini_command m])
        ∧ reply_ids m = [msg_id])
  ∧ (∃ m, handle_clear_history clear_conversation_history_core user_id msg_id st
          = (Raise FinishedException,
             {| trace := trace st ++ [ClearHistory user_id; Send gemini_command m];
                conversation_history :=
                  (clear_conversation_history_core user_id
                     (conversation_history st)).2 |})
        ∧ reply_ids m = [msg_id])
  ∧ (∃ m, send_processing_message image_list msg_id st
          = (Ok tt, add_trace st [Send gemini_command m])
        ∧ reply_ids m = [msg_id]).
Proof.
  intros Hprompt. split; [|split; [|split]].
  - apply send_gemini_response_run.
  - exists [Text _help_str; Reply msg_id]. split; [|done].
    unfold handle_gemini.
    replace (negb (match_available prompt) || negb (truthy (match_result prompt)))
      with true by (destruct Hprompt as [-> | ->]; [done | by rewrite orb_true_r]).
    done.
  - destruct (clear_conversation_history_core user_id (conversation_history st))
      as [cleared h] eqn:Hcore.
    eexists. split; [exact (handle_clear_history_run _ _ _ _ _ Hcore)|]. done.
  - unfold send_processing_message.
    destruct (truthy image_list && bool_decide (0 < length image_list));
      eexists; (split; [reflexivity|]); done.
Qed.

End Handler.

(** ** The image collector, effect by effect *)

Section CollectorEffects.

Variable http : string → HttpOutcome.
Variable UniMessage_generate : Message → Event → Bot → result Message.

Lemma fetch_runs url :
  runs (get_image_data_from_url http url) (Ok (fetched http url))
       (fetch_effects http url).
Proof.
  unfold get_image_data_from_url, fetched, fetch_effects, session_get,
    logger_info, logger_error.
  destruct (http url) as [status body | e] eqn:E.
  - destruct (status =? 200)%Z eqn:E200.
    + apply runs_try_ok.
      eapply (runs_bind _ _ _ [_]); [apply runs_emit|].
      eapply (runs_bind _ _ (status, body) [_] _ []);
        [eapply (runs_bind _ _ _ [_] _ []); [apply runs_emit | apply runs_ret]|].
      simpl. rewrite E200. apply runs_ret.
    + apply runs_try_ok.
      eapply (runs_bind _ _ _ [_]); [apply runs_emit|].
      eapply (runs_bind _ _ (status, body) [_] _ [_]);
        [eapply (runs_bind _ _ _ [_] _ []); [apply runs_emit | apply runs_ret]|].
      simpl. rewrite E200. simpl.
      eapply (runs_bind _ _ _ [_] _ []); [apply runs_emit | apply runs_ret].
  - eapply (runs_try_raise _ _ _ [_; _] _ [_]).
    + eapply (runs_bind _ _ _ [_] _ [_]); [apply runs_emit|].
      apply runs_bind_raise.
      eapply (runs_bind _ _ _ [_] _ []); [apply runs_emit | apply runs_raise].
    + eapply (runs_bind _ _ _ [_] _ []); [apply runs_emit | apply runs_ret].
Qed.

Lemma fetch_effects_io url : Forall (λ e, is_io e = true) (fetch_effects http url).
Proof.
  unfold fetch_effects.
  destruct (http url) as [status body | e]; [destruct (status =? 200)%Z|];
    repeat constructor.
Qed.

Lemma fetch_effects_gets url : http_gets (fetch_effects http url) = [url].
Proof.
  unfold fetch_effects.
  by destruct (http url) as [status body | e]; [destruct (status =? 200)%Z|].
Qed.

(** X1.  What a fetch comes to, case by case: one info line and one GET
    of the URL in every case; the body of a 200 response is returned as
    it is; another status is logged and gives [None]; an exception of
    the client is logged with its text and gives [None].  Nothing is
    raised. *)
Theorem get_image_data_from_url_outcomes url st :
  get_image_data_from_url http url st
  = match http url with
    | Response status body =>
        if (status =? 200)%Z then
          (Ok (Some body),
           add_trace st [Log INFO ("获取图像数据: " +:+ url); HttpGet url])
        else
          (Ok None,
           add_trace st [Log INFO ("获取图像数据: " +:+ url); HttpGet url;
                         Log ERROR ("无法获取图片数据: " +:+ pretty status)])
    | ClientError e =>
        (Ok None,
         add_trace st [Log INFO ("获取图像数据: " +:+ url); HttpGet url;
                       Log ERROR ("获取图像数据失败: " +:+ str e)])
    end.
Proof.
  rewrite fetch_runs. unfold fetched, fetch_effects.
  by destruct (http url) as [status body | e]; [destruct (status =? 200)%Z|].
Qed.

(** The run of [to_image_data]: no exception, and only log lines and
    GETs. *)
Lemma to_image_data_io segment :
  ∃ o t, runs (to_image_data http segment) (Ok o) t
       ∧ Forall (λ e, is_io e = true) t.
Proof.
  unfold to_image_data, logger_info, logger_error.
  destruct (bool_decide (seg_type segment = "image")),
           (seg_data segment) as [data|].
  1: { destruct (data !! "url") as [u|].
       - eexists _, _. split.
         + eapply runs_try_ok. eapply runs_bind; [apply runs_emit | apply fetch_runs].
         + apply Forall_app. split; [by repeat constructor | apply fetch_effects_io].
       - destruct (seg_raw segment); eexists _, _;
           (split; [run_steps | simpl; repeat constructor]). }
  all: destruct (seg_is_AlconnaImage segment);
    [| eexists _, _; (split; [run_steps | simpl; repeat constructor]) ..].
  all: destruct (seg_raw segment); simpl;
    [ eexists _, _; (split; [run_steps | simpl; repeat constructor])
    | | eexists _, _; (split; [run_steps | simpl; repeat constructor]) ].
  all: destruct (seg_url segment) as [| |u]; simpl;
    [ eexists _, _; (split; [run_steps | simpl; repeat constructor]) .. |].
  all: eexists _, _; (split; [ eapply runs_try_ok, runs_bind;
       [apply runs_ret | simpl; eapply runs_bind; [apply runs_ret | apply fetch_runs]] |]);
    simpl; apply fetch_effects_io.
Qed.

(** [effects_of] and [image_of] are the trace and the contribution of the
    run from any state. *)
Lemma to_image_data_exact segment :
  ∃ o, runs (to_image_data http segment) (Ok o) (effects_of http segment)
     ∧ image_of http segment = (if truthy o then option_list o else []).
Proof.
  destruct (to_image_data_runs http segment) as (o & t & Hruns & _).
  exists o. split; [|by apply (image_of_runs _ _ _ t)].
  unfold effects_of. by rewrite Hruns.
Qed.

Lemma effects_of_io segment : Forall (λ e, is_io e = true) (effects_of http segment).
Proof.
  destruct (to_image_data_io segment) as (o & t & Hruns & Hio).
  unfold effects_of. by rewrite Hruns.
Qed.

Lemma effects_of_gets segment :
  http_gets (effects_of http segment) = []
  ∨ ∃ u, http_gets (effects_of http segment) = [u] ∧ fetch_source segment u.
Proof.
  destruct (to_image_data_runs http segment) as (o & t & Hruns & Hgets).
  assert (effects_of http segment = t) as ->
    by (unfold effects_of; by rewrite Hruns).
  destruct Hgets as [Hnil | (u & Hu & _ & Hsrc)]; [by left|].
  right. by exists u.
Qed.

Lemma effects_of_not_image segment :
  is_image segment = false → effects_of http segment = [].
Proof.
  unfold is_image, first_branch, effects_of, to_image_data. intros H.
  apply orb_false_iff in H as [H1 ->].
  destruct (bool_decide (seg_type segment = "image")); [|done].
  by destruct (seg_data segment).
Qed.

Lemma to_image_data_of_data_url segment u st :
  data_url segment = Some u →
  to_image_data http segment st
  = (Ok (fetched http u),
     add_trace st ([Log INFO ("从URL提取图片数据: " +:+ u)] ++ fetch_effects http u)).
Proof.
  unfold data_url, to_image_data. intros Hu.
  destruct (bool_decide (seg_type segment = "image")); [|done].
  destruct (seg_data segment) as [data|]; [|done]. simpl in Hu. rewrite Hu.
  apply runs_try_ok. eapply runs_bind; [apply runs_emit | apply fetch_runs].
Qed.

Lemma effects_of_data_url segment u :
  data_url segment = Some u → http_gets (effects_of http segment) = [u].
Proof.
  intros Hu. unfold effects_of. rewrite (to_image_data_of_data_url _ _ _ Hu).
  simpl. apply fetch_effects_gets.
Qed.


Lemma image_of_length segment : length (image_of http segment) ≤ 1.
Proof.
  unfold image_of.
  destruct ((to_image_data http segment initial_state).1) as [[[|x b]|]|];
    simpl; lia.
Qed.

Lemma effects_of_gets_length segment :
  length (http_gets (effects_of http segment)) ≤ 1.
Proof.
  destruct (effects_of_gets segment) as [-> | (u & -> & _)]; simpl; lia.
Qed.

Lemma http_gets_app t1 t2 : http_gets (t1 ++ t2) = http_gets t1 ++ http_gets t2.
Proof. apply omap_app. Qed.

Lemma http_gets_flat_map {A} (tr : A → list Effect) l :
  http_gets (flat_map tr l) = flat_map (λ x, http_gets (tr x)) l.
Proof.
  induction l as [|x l IH]; [done|]. simpl. by rewrite http_gets_app, IH.
Qed.

Lemma flat_map_length_filter {A B} (g : A → list B) (keep : A → bool) l :
  (∀ x, length (g x) ≤ 1) →
  (∀ x, keep x = false → g x = []) →
  length (flat_map g l) ≤ length (filter (λ x, keep x = true) l).
Proof.
  intros Hone Hskip. induction l as [|x l IH]; [done|].
  simpl. rewrite length_app, filter_cons. destruct (keep x) eqn:E.
  - rewrite decide_True by done. simpl. specialize (Hone x). lia.
  - rewrite decide_False by done. rewrite (Hskip x E). simpl. lia.
Qed.

Lemma runs_bind_quiet_l {A B} (m : M A) (f : A → M B) a r t :
  runs m (Ok a) [] → runs (f a) r t → runs (m ≫= f) r t.
Proof. intros Hm Hf. apply (runs_bind m f a [] r t Hm Hf). Qed.

Lemma runs_bind_quiet_r {A B} (m : M A) (f : A → M B) a r t :
  runs m (Ok a) t → runs (f a) r [] → runs (m ≫= f) r t.
Proof.
  intros Hm Hf. rewrite <- (app_nil_r t). apply (runs_bind m f a t r [] Hm Hf).
Qed.

(** The loop of the two collectors, with its trace. *)
Lemma for_loop_exact {A} (g : A → list bytes) (tr : A → list Effect)
    (body : list bytes → A → M (list bytes)) :
  (∀ acc x, runs (body acc x) (Ok (acc ++ g x)) (tr x)) →
  ∀ l acc,
    runs (for_loop l acc body) (Ok (acc ++ flat_map g l, None)) (flat_map tr l).
Proof.
  intros Hbody l. induction l as [|x l IH]; intros acc; simpl.
  - rewrite app_nil_r. apply (runs_ret (acc, None)).
  - intros st. rewrite Hbody, IH. by rewrite add_trace_app, app_assoc.
Qed.

Lemma append_image_exact acc segment :
  runs (img_bytes ← to_image_data http segment ;
        if truthy img_bytes
        then mret (acc ++ option_list img_bytes)
        else mret acc)
       (Ok (acc ++ image_of http segment)) (effects_of http segment).
Proof.
  destruct (to_image_data_exact segment) as (o & Hruns & ->).
  eapply runs_bind_quiet_r; [exact Hruns|].
  destruct (truthy o); [apply runs_ret|]. rewrite app_nil_r. apply runs_ret.
Qed.

Lemma extract_images_from_message_exact message :
  runs (extract_images_from_message http message)
       (Ok (flat_map (image_of http) message))
       (flat_map (effects_of http) message).
Proof.
  unfold extract_images_from_message.
  destruct message as [|segment message]; [apply runs_ret|].
  cbn [truthy truthy_list negb].
  eapply runs_bind_quiet_r.
  - apply (for_loop_exact (image_of http) (effects_of http) _
             (λ acc x, append_image_exact acc x) (segment :: message) []).
  - apply runs_ret.
Qed.

Lemma collect_images_exact event ext msg_id bot :
  runs (collect_images http UniMessage_generate event ext msg_id bot)
       (Ok (referenced_images http UniMessage_generate event ext msg_id bot
            ++ message_images http event))
       (referenced_effects http UniMessage_generate event ext msg_id bot
        ++ message_effects http event).
Proof.
  unfold collect_images, referenced_images, referenced_effects, referenced_message,
    message_images, message_effects.
  assert (∀ image_list : list bytes,
    runs (try_except
            (message ← lift (get_message event) ;
             message_images ← extract_images_from_message http message ;
             mret (image_list ++ message_images))
            (λ e, logger_error ("处理消息中图片出错: " +:+ str e) ;; mret image_list))
         (Ok (image_list ++ match get_message event with
                            | Ok message => flat_map (image_of http) message
                            | Raise _ => []
                            end))
         (match get_message event with
          | Ok message => flat_map (effects_of http) message
          | Raise e => [Log ERROR ("处理消息中图片出错: " +:+ str e)]
          end)) as Hmsg.
  { intros image_list. destruct (get_message event) as [message|e].
    - apply runs_try_ok.
      eapply runs_bind_quiet_l; [apply runs_lift|].
      eapply runs_bind_quiet_r;
        [apply extract_images_from_message_exact | apply runs_ret].
    - rewrite app_nil_r. eapply (runs_try_raise _ _ _ []).
      + eapply runs_bind_raise, runs_lift.
      + eapply runs_bind_quiet_r; [apply runs_emit | apply runs_ret]. }
  destruct (get_reply ext msg_id) as [reply|].
  - destruct (UniMessage_generate (reply_msg reply) event bot) as [uni_reply|e].
    + cbv beta iota.
      rewrite <- (flat_map_filter (image_of http) seg_is_AlconnaImage),
              <- (flat_map_filter (effects_of http) seg_is_AlconnaImage).
      eapply runs_bind; [|apply Hmsg].
      apply runs_try_ok. eapply runs_bind_quiet_l; [apply runs_lift|].
      eapply runs_bind_quiet_r.
      * apply (for_loop_exact
                 (λ s, if seg_is_AlconnaImage s then image_of http s else [])
                 (λ s, if seg_is_AlconnaImage s then effects_of http s else [])).
        intros acc x. destruct (seg_is_AlconnaImage x).
        -- apply append_image_exact.
        -- rewrite app_nil_r. apply runs_ret.
      * apply runs_ret.
    + eapply runs_bind; [|apply Hmsg].
      eapply (runs_try_raise _ _ _ []); [eapply runs_bind_raise, runs_lift|].
      eapply runs_bind_quiet_r; [apply runs_emit | apply runs_ret].
  - eapply runs_bind_quiet_l; [apply runs_ret | apply Hmsg].
Qed.


Lemma flat_map_effects_io segments :
  Forall (λ e, is_io e = true) (flat_map (effects_of http) segments).
Proof.
  induction segments as [|s segments IH]; simpl; [done|].
  apply Forall_app. split; [apply effects_of_io | done].
Qed.

Lemma flat_map_nil {A B} (g : A → list B) l :
  Forall (λ x, g x = []) l → flat_map g l = [].
Proof. induction 1 as [|x l Hx _ IH]; [done|]. simpl. by rewrite Hx, IH. Qed.

(** X2.  A message without image segments (a text message, the empty
    message) costs nothing: the list is empty and the run has no effect at
    all, neither a GET nor a log line. *)
Theorem extract_images_from_message_without_images message st :
  Forall (λ s, is_image s = false) message →
  extract_images_from_message http message st = (Ok [], st).
Proof.
  intros H. rewrite extract_images_from_message_exact.
  rewrite !flat_map_nil, ?add_trace_nil; [done|..].
  - eapply Forall_impl; [exact H|]. intros s. apply effects_of_not_image.
  - eapply Forall_impl; [exact H|]. intros s. apply image_of_not_image.
Qed.

(** X3.  The first branch of [to_image_data] has no way into the second:
    a segment of type "image" with a data mapping that has no "url" entry,
    and without raw bytes, gives [None] with no effect, whether or not it
    is an [AlconnaImage] and whatever its [url] attribute holds. *)
Theorem to_image_data_first_branch_is_final segment st :
  first_branch segment = true →
  data_url segment = None →
  (∀ raw, seg_raw segment ≠ Val raw) →
  to_image_data http segment st = (Ok None, st).
Proof.
  unfold first_branch, data_url, to_image_data. intros Hfirst Hurl Hraw.
  destruct (bool_decide (seg_type segment = "image")); [|done].
  destruct (seg_data segment) as [data|]; [|done]. simpl in Hurl. rewrite Hurl.
  destruct (seg_raw segment) as [| |raw]; [done | done |].
  by destruct (Hraw raw).
Qed.

(** X4.  [to_image_data] never raises, whatever the segment and the
    network; its effects are log lines and at most one GET, and it leaves
    the history store alone. *)
Theorem to_image_data_effects segment st :
  ∃ o t, to_image_data http segment st = (Ok o, add_trace st t)
       ∧ Forall (λ e, is_io e = true) t
       ∧ length (http_gets t) ≤ 1.
Proof.
  destruct (to_image_data_exact segment) as (o & Hruns & _).
  exists o, (effects_of http segment). split; [apply Hruns|].
  split; [apply effects_of_io | apply effects_of_gets_length].
Qed.

(** X5.  Extraction goes through a message from left to right: the run on
    [m1 ++ m2] is the run on [m1] followed by the run on [m2], and its
    list is the two lists one after the other. *)
Theorem extract_images_from_message_app m1 m2 st :
  ∃ l1 l2 st1 st2,
    extract_images_from_message http m1 st = (Ok l1, st1)
    ∧ extract_images_from_message http m2 st1 = (Ok l2, st2)
    ∧ extract_images_from_message http (m1 ++ m2) st = (Ok (l1 ++ l2), st2).
Proof.
  eexists _, _, _, _. rewrite !extract_images_from_message_exact.
  split; [reflexivity|]. split; [reflexivity|].
  by rewrite !flat_map_app, add_trace_app.
Qed.

(** X6.  No image segment gives more than one buffer or more than one
    GET, and other segments give none: the list and the GETs of an
    extraction are at most as many as the image segments of the
    message. *)
Theorem extract_images_from_message_bounds message st :
  ∃ l t,
    extract_images_from_message http message st = (Ok l, add_trace st t)
    ∧ length l ≤ length (filter (λ s, is_image s = true) message)
    ∧ length (http_gets t) ≤ length (filter (λ s, is_image s = true) message).
Proof.
  eexists _, _. split; [apply extract_images_from_message_exact|]. split.
  - apply flat_map_length_filter; [apply image_of_length | apply image_of_not_image].
  - rewrite http_gets_flat_map.
    apply (flat_map_length_filter (λ s, http_gets (effects_of http s)) is_image).
    + apply effects_of_gets_length.
    + intros s Hs. by rewrite effects_of_not_image.
Qed.

(** X7.  The GETs of an extraction follow the message: when every segment
    has a "url" entry in the data of a segment of type "image", the URLs
    fetched are those entries, in order, repeated ones fetched again. *)
Theorem extract_images_from_message_fetch_order message urls st :
  Forall2 (λ s u, data_url s = Some u) message urls →
  ∃ l t,
    extract_images_from_message http message st = (Ok l, add_trace st t)
    ∧ http_gets t = urls.
Proof.
  intros H. eexists _, _. split; [apply extract_images_from_message_exact|].
  rewrite http_gets_flat_map.
  induction H as [|s u message urls Hs _ IH]; [done|].
  simpl. by rewrite (effects_of_data_url _ _ Hs), IH.
Qed.

(** X8.  [collect_images] is two extractions in a row: from the
    [AlconnaImage] segments of the converted referenced message, then from
    the triggering message; effects and lists follow in that order. *)
Theorem collect_images_as_extractions event ext msg_id bot uni_reply message st :
  referenced_message UniMessage_generate event ext msg_id bot = Ok uni_reply →
  get_message event = Ok message →
  ∃ l_ref l_msg st1 st2,
    extract_images_from_message http
      (filter (λ s, seg_is_AlconnaImage s = true) uni_reply) st = (Ok l_ref, st1)
    ∧ extract_images_from_message http message st1 = (Ok l_msg, st2)
    ∧ collect_images http UniMessage_generate event ext msg_id bot st
      = (Ok (l_ref ++ l_msg), st2).
Proof.
  intros Href Hmsg. eexists _, _, _, _.
  rewrite !extract_images_from_message_exact, collect_images_exact.
  split; [reflexivity|]. split; [reflexivity|].
  unfold referenced_images, referenced_effects, message_images, message_effects.
  by rewrite Href, Hmsg, add_trace_app.
Qed.

(** X9.  When the conversion of the referenced message raises,
    [collect_images] logs the exception and goes on: it returns the images
    of the triggering message alone. *)
Theorem collect_images_when_generate_raises event ext msg_id bot e message st :
  referenced_message UniMessage_generate event ext msg_id bot = Raise e →
  get_message event = Ok message →
  ∃ l st2,
    extract_images_from_message http message
      (add_trace st [Log ERROR ("处理回复消息中的图片出错: " +:+ str e)]) = (Ok l, st2)
    ∧ collect_images http UniMessage_generate event ext msg_id bot st = (Ok l, st2).
Proof.
  intros Href Hmsg. eexists _, _.
  rewrite !extract_images_from_message_exact, collect_images_exact.
  split; [reflexivity|].
  unfold referenced_images, referenced_effects, message_images, message_effects.
  by rewrite Href, Hmsg, add_trace_app.
Qed.

(** X10.  When the triggering message cannot be read, [collect_images]
    logs the exception and returns the images of the referenced message
    alone. *)
Theorem collect_images_when_get_message_raises event ext msg_id bot uni_reply e st :
  referenced_message UniMessage_generate event ext msg_id bot = Ok uni_reply →
  get_message event = Raise e →
  ∃ l st1,
    extract_images_from_message http
      (filter (λ s, seg_is_AlconnaImage s = true) uni_reply) st = (Ok l, st1)
    ∧ collect_images http UniMessage_generate event ext msg_id bot st
      = (Ok l, add_trace st1 [Log ERROR ("处理消息中图片出错: " +:+ str e)]).
Proof.
  intros Href Hmsg. eexists _, _.
  rewrite !extract_images_from_message_exact, collect_images_exact.
  split; [reflexivity|].
  unfold referenced_images, referenced_effects, message_images, message_effects.
  by rewrite Href, Hmsg, add_trace_app, app_nil_r.
Qed.

(** X11.  [collect_images] always returns a list: whatever the reply
    record, the conversion, the event and the network do, it raises
    nothing, its effects are log lines and GETs only (no message is sent,
    the API is not called), and the history store is left alone. *)
Theorem collect_images_only_logs_and_fetches event ext msg_id bot st :
  ∃ l t,
    collect_images http UniMessage_generate event ext msg_id bot st
    = (Ok l, add_trace st t)
    ∧ Forall (λ e, is_io e = true) t.
Proof.
  eexists _, _. split; [apply collect_images_exact|].
  unfold referenced_effects, message_effects. apply Forall_app. split.
  - destruct (referenced_message _ _ _ _ _); [apply flat_map_effects_io|].
    by repeat constructor.
  - destruct (get_message event); [apply flat_map_effects_io|].
    by repeat constructor.
Qed.

End CollectorEffects.

(** ** The request path of the handler *)

Section RequestPath.

Variable http : string → HttpOutcome.
Variable UniMessage_generate : Message → Event → Bot → result Message.
Variable chat_with_gemini_core :
  string → string → list bytes → History → result GeminiResponse * History.
Variable clear_conversation_history_core : string → History → bool * History.




(** X14.  A successful response with a text and an image goes out as one
    message: the text, then the image, then the reply segment. *)
Theorem send_gemini_response_text_then_image response msg_id st t b :
  success response = true →
  text response = Some t → t ≠ "" →
  image response = Some b → b ≠ [] →
  send_gemini_response response msg_id st
  = (Raise FinishedException,
     add_trace st [Send gemini_command [Text t; Image b; Reply msg_id]]).
Proof.
  intros Hs Ht Hne Hi Hb. unfold send_gemini_response. rewrite Hs, Ht, Hi.
  destruct t; [done|]. by destruct b.
Qed.

(** X15.  A successful response with neither a text nor an image (each
    [None] or empty) is still answered: the message sent holds the reply
    segment and nothing else. *)
Theorem send_gemini_response_without_content response msg_id st :
  success response = true →
  text response = None ∨ text response = Some "" →
  image response = None ∨ image response = Some [] →
  send_gemini_response response msg_id st
  = (Raise FinishedException, add_trace st [Send gemini_command [Reply msg_id]]).
Proof.
  intros Hs Ht Hi. unfold send_gemini_response. rewrite Hs.
  by destruct Ht as [-> | ->], Hi as [-> | ->].
Qed.



End RequestPath.

(** ** The properties at concrete inputs *)

Import Examples.

(** A triggering message with a text and an image fetched from a URL, in
    reply to a message with one [AlconnaImage] holding its bytes. *)
Lemma collect_images_referenced_first_witness :
  (collect_images http generate
     (event [text_segment; url_segment "https://example.org/cat.png"])
     (reply_to [raw_image jpg]) "42" TheBot initial_state).1
  = Ok ([jpg] ++ [png])
  ∧ length ([jpg] ++ [png]) = 1 + 1.
Proof.
  apply (collect_images_referenced_first http generate
           (event [text_segment; url_segment "https://example.org/cat.png"])
           (reply_to [raw_image jpg]) "42" TheBot
           [raw_image jpg]
           [text_segment; url_segment "https://example.org/cat.png"]).
  - reflexivity.
  - reflexivity.
  - apply Forall2_cons_2; [|apply Forall2_nil_2]. split; [|done].
    intros st. reflexivity.
  - apply Forall2_cons_2; [|apply Forall2_nil_2]. split; [|done].
    intros st. reflexivity.
Defined.

(** C1 as stated fails: the one image of the triggering message resolves
    to bytes, a 200 response with an empty body, and the list returned
    has no entry where N + M = 1 + 0. *)
Lemma collect_images_drops_empty_body :
  let segment := url_segment "https://example.org/empty.png" in
  let trigger := event [segment] in
  resolves_to http segment []
  ∧ filter (λ s, is_image s = true) [segment] = [segment]
  ∧ referenced_message generate trigger no_reply "42" TheBot = Ok []
  ∧ ∃ l, (collect_images http generate trigger no_reply "42" TheBot
            initial_state).1 = Ok l
         ∧ length l ≠ 1 + 0.
Proof.
  simpl. split; [by intros st|]. split; [reflexivity|]. split; [reflexivity|].
  exists []. split; [reflexivity | discriminate].
Qed.

(** The [AlconnaImage] branch of [to_image_data], where it is reached,
    reads [raw] before [url]: bytes at hand are returned and nothing is
    fetched or logged. *)
Lemma to_image_data_AlconnaImage_branch http' (segment : Segment) raw st :
  first_branch segment = false →
  seg_is_AlconnaImage segment = true →
  seg_raw segment = Val raw →
  to_image_data http' segment st = (Ok (Some raw), st).
Proof.
  unfold first_branch, to_image_data. intros Hbranch -> ->.
  destruct (bool_decide (seg_type segment = "image")); [|done].
  by destruct (seg_data segment).
Qed.

(** C2 (defect of the code).  An [AlconnaImage] that holds its bytes and
    a URL is of type "image" and has a data mapping with the "url"
    entry, so it takes the first branch of [to_image_data], which reads
    that entry before [raw]: the URL is fetched, here with a 404, and the
    image is lost although its bytes were at hand. *)
Theorem to_image_data_first_branch_ignores_raw :
  seg_is_AlconnaImage (image_with_url_and_raw "https://example.org/gone.png" png)
  = true
  ∧ seg_raw (image_with_url_and_raw "https://example.org/gone.png" png) = Val png
  ∧ to_image_data http (image_with_url_and_raw "https://example.org/gone.png" png)
      initial_state
    = (Ok None,
       add_trace initial_state
         [Log INFO "从URL提取图片数据: https://example.org/gone.png";
          Log INFO "获取图像数据: https://example.org/gone.png";
          HttpGet "https://example.org/gone.png";
          Log ERROR "无法获取图片数据: 404"]).
Proof. by repeat split. Qed.

(** The same on an adapter segment: it carries raw bytes beside the "url"
    entry of its data, and [to_image_data] performs the GET and returns
    the response body, not the raw bytes. *)
Lemma to_image_data_fetches_despite_raw_bytes :
  let segment := url_and_raw_segment "https://example.org/cat.png" jpg in
  seg_raw segment = Val jpg
  ∧ (to_image_data http segment initial_state).1 = Ok (Some png)
  ∧ http_gets (trace (to_image_data http segment initial_state).2)
    = ["https://example.org/cat.png"]
  ∧ png ≠ jpg.
Proof. simpl. split; [reflexivity|]. split; [reflexivity|]. by split. Qed.

(** A segment whose URL answers 404. *)
Lemma non_200_fetch_yields_no_image_witness :
  (to_image_data http (url_segment "https://example.org/gone.png") initial_state).1
  = Ok None.
Proof.
  refine (proj1 (non_200_fetch_yields_no_image http generate
            (url_segment "https://example.org/gone.png") initial_state
            _ (to_image_data http (url_segment "https://example.org/gone.png")
                 initial_state).2
            [Log INFO "从URL提取图片数据: https://example.org/gone.png";
             Log INFO "获取图像数据: https://example.org/gone.png";
             HttpGet "https://example.org/gone.png";
             Log ERROR "无法获取图片数据: 404"]
            "https://example.org/gone.png" 404 jpg _ _ _ _ _)).
  - reflexivity.
  - reflexivity.
  - apply list_elem_of_here.
  - reflexivity.
  - discriminate.
Defined.

(** A message that resolves to empty bytes beside one that resolves to an
    image. *)
Lemma image_lists_hold_no_empty_buffer_witness :
  (extract_images_from_message http
     [url_segment "https://example.org/empty.png";
      url_segment "https://example.org/cat.png"] initial_state).1
  = (extract_images_from_message http
       (filter (λ s, s ≠ url_segment "https://example.org/empty.png")
          [url_segment "https://example.org/empty.png";
           url_segment "https://example.org/cat.png"]) initial_state).1.
Proof.
  apply (proj2 (proj2 (image_lists_hold_no_empty_buffer http generate
           (event []) no_reply "42" TheBot
           [url_segment "https://example.org/empty.png";
            url_segment "https://example.org/cat.png"] initial_state))).
  reflexivity.
Defined.

(** No prompt at all. *)
Lemma handle_gemini_help_witness :
  handle_gemini http generate chat_ok clear_history_spec TheBot (event []) no_prompt
    no_reply "42" alice initial_state
  = (Raise FinishedException,
     add_trace initial_state [Send gemini_command [Text _help_str; Reply "42"]]).
Proof. apply handle_gemini_help. by left. Defined.

(** The prompt "clear", from a user with one turn of history. *)
Lemma handle_gemini_clear_history_witness :
  handle_gemini http generate chat_ok clear_history_spec TheBot (event [])
    (prompt "clear") no_reply "42" alice
    {| trace := []; conversation_history := {[ "alice" := [("hello", "hi")] ]} |}
  = (Raise FinishedException,
     {| trace := [ClearHistory "alice";
                  Send gemini_command [Text "对话历史已清除"; Reply "42"]];
        conversation_history := ∅ |}).
Proof.
  apply (handle_gemini_clear_history http generate chat_ok clear_history_spec
           TheBot (event []) (prompt "clear") no_reply "42" alice
           {| trace := []; conversation_history := {[ "alice" := [("hello", "hi")] ]} |}
           true ∅).
  - reflexivity.
  - do 2 apply list_elem_of_further. apply list_elem_of_here.
  - unfold clear_history_spec. simpl. rewrite lookup_singleton_eq.
    by rewrite delete_singleton_eq.
Defined.

Lemma send_gemini_response_image_only_witness :
  ∃ msg,
    send_gemini_response image_only "42" initial_state
    = (Raise FinishedException, add_trace initial_state [Send gemini_command msg])
    ∧ images msg = [png] ∧ texts msg = [].
Proof.
  apply (send_gemini_response_image_only image_only "42" initial_state png).
  - reflexivity.
  - reflexivity.
  - discriminate.
  - by left.
Defined.

Lemma send_gemini_response_failure_witness :
  send_gemini_response failure "42" initial_state
  = (Raise FinishedException,
     add_trace initial_state [Send gemini_command [Text "API error"]])
  ∧ texts [Text "API error"] = ["API error"]
  ∧ images [Text "API error"] = []
  ∧ reply_ids [Text "API error"] = [].
Proof. apply (send_gemini_response_failure failure "42" initial_state). reflexivity. Defined.

(** The platform refuses the answer, a reply: the refusal is caught and
    reported, and the [FinishedException] of the report leaves the
    function. *)
Lemma process_gemini_request_exceptions_witness :
  Platform.process_gemini_request refuses_replies chat_ok
    "what is this" "alice" [png] "42" initial_state
  = (Raise FinishedException,
     {| trace := [ChatWithGemini "what is this" "alice" [png];
                  Log ERROR "处理请求出错: ActionFailed";
                  Send gemini_command [Text "处理请求时出错: ActionFailed"]];
        conversation_history := {[ "alice" := [("what is this", "a cat")] ]} |}).
Proof.
  destruct (process_gemini_request_exceptions chat_ok refuses_replies
              "what is this" "alice" [png] "42" initial_state
              (Ok {| success := true; text := Some "a cat"; image := None;
                     error := None |})
              {[ "alice" := [("what is this", "a cat")] ]} eq_refl)
    as (message & Hmessage & Hrun).
  injection Hmessage as <-. exact Hrun.
Defined.

(** C8 as stated fails.  The call of the API raises an exception, the
    handler reports it with [finish], and the [FinishedException] of that
    [finish] leaves [process_gemini_request]; on a platform that refuses
    the report, the exception of the send leaves it. *)
Lemma process_gemini_request_lets_finished_escape :
  Platform.process_gemini_request delivers chat_raises
    "what is this" "alice" [] "42" initial_state
  = (Raise FinishedException,
     {| trace :=
          [ChatWithGemini "what is this" "alice" [];
           Log ERROR "处理请求出错: quota exceeded";
           Send gemini_command [Text "处理请求时出错: quota exceeded"]];
        conversation_history := ∅ |})
  ∧ Platform.process_gemini_request refuses_all chat_raises
      "what is this" "alice" [] "42" initial_state
    = (Raise (Exception "NetworkError"),
       {| trace :=
            [ChatWithGemini "what is this" "alice" [];
             Log ERROR "处理请求出错: quota exceeded"];
          conversation_history := ∅ |}).
Proof. by split. Qed.

Lemma replies_are_addressed_except_errors_witness :
  (∃ m, send_gemini_response failure "42" initial_state
        = (Raise FinishedException, add_trace initial_state [Send gemini_command m])
      ∧ reply_ids m = [])
  ∧ (∃ m, handle_gemini http generate chat_ok clear_history_spec TheBot (event [])
            no_prompt no_reply "42" alice initial_state
          = (Raise FinishedException, add_trace initial_state [Send gemini_command m])
        ∧ reply_ids m = ["42"])
  ∧ (∃ m, handle_clear_history clear_history_spec "alice" "42" initial_state
          = (Raise FinishedException,
             {| trace := [ClearHistory "alice"; Send gemini_command m];
                conversation_history := ∅ |})
        ∧ reply_ids m = ["42"])
  ∧ (∃ m, send_processing_message [png] "42" initial_state
          = (Ok tt, add_trace initial_state [Send gemini_command m])
        ∧ reply_ids m = ["42"]).
Proof.
  apply (replies_are_addressed_except_errors http generate chat_ok clear_history_spec
           TheBot (event []) no_prompt no_reply "42" alice failure "alice" [png]
           initial_state).
  by left.
Defined.

(** ** Further properties at concrete inputs *)

(** A text message. *)
Lemma extract_images_from_message_without_images_witness :
  extract_images_from_message http [text_segment; text_segment] initial_state
  = (Ok [], initial_state).
Proof.
  apply extract_images_from_message_without_images.
  by repeat constructor.
Defined.

(** An [AlconnaImage] instance of type "image" with a [url] attribute and
    no "url" entry in its data is not fetched. *)
Lemma to_image_data_first_branch_is_final_witness :
  to_image_data http (shadowed_image "https://example.org/cat.png") initial_state
  = (Ok None, initial_state).
Proof.
  apply to_image_data_first_branch_is_final.
  - reflexivity.
  - reflexivity.
  - intros raw. discriminate.
Defined.

(** The same URL twice, around one that answers 404. *)
Lemma extract_images_from_message_fetch_order_witness :
  ∃ l t,
    extract_images_from_message http
      [url_segment "https://example.org/cat.png";
       url_segment "https://example.org/gone.png";
       url_segment "https://example.org/cat.png"] initial_state
    = (Ok l, add_trace initial_state t)
    ∧ http_gets t
      = ["https://example.org/cat.png"; "https://example.org/gone.png";
         "https://example.org/cat.png"].
Proof.
  apply extract_images_from_message_fetch_order.
  by repeat constructor.
Defined.

Lemma collect_images_as_extractions_witness :
  ∃ l_ref l_msg st1 st2,
    extract_images_from_message http
      (filter (λ s, seg_is_AlconnaImage s = true) [text_segment; raw_image jpg])
      initial_state = (Ok l_ref, st1)
    ∧ extract_images_from_message http
        [text_segment; url_segment "https://example.org/cat.png"] st1
      = (Ok l_msg, st2)
    ∧ collect_images http generate
        (event [text_segment; url_segment "https://example.org/cat.png"])
        (reply_to [text_segment; raw_image jpg]) "42" TheBot initial_state
      = (Ok (l_ref ++ l_msg), st2).
Proof.
  apply (collect_images_as_extractions http generate
           (event [text_segment; url_segment "https://example.org/cat.png"])
           (reply_to [text_segment; raw_image jpg]) "42" TheBot).
  - reflexivity.
  - reflexivity.
Defined.

Lemma collect_images_when_generate_raises_witness :
  ∃ l st2,
    extract_images_from_message http [url_segment "https://example.org/cat.png"]
      (add_trace initial_state
         [Log ERROR ("处理回复消息中的图片出错: " +:+ "unsupported segment")])
    = (Ok l, st2)
    ∧ collect_images http generate_raises
        (event [url_segment "https://example.org/cat.png"])
        (reply_to [raw_image jpg]) "42" TheBot initial_state
      = (Ok l, st2).
Proof.
  apply (collect_images_when_generate_raises http generate_raises
           (event [url_segment "https://example.org/cat.png"])
           (reply_to [raw_image jpg]) "42" TheBot (Exception "unsupported segment")).
  - reflexivity.
  - reflexivity.
Defined.

Lemma collect_images_when_get_message_raises_witness :
  ∃ l st1,
    extract_images_from_message http
      (filter (λ s, seg_is_AlconnaImage s = true) [raw_image jpg]) initial_state
    = (Ok l, st1)
    ∧ collect_images http generate unreadable_event (reply_to [raw_image jpg])
        "42" TheBot initial_state
      = (Ok l, add_trace st1 [Log ERROR ("处理消息中图片出错: " +:+ "no message")]).
Proof.
  apply (collect_images_when_get_message_raises http generate unreadable_event
           (reply_to [raw_image jpg]) "42" TheBot [raw_image jpg]
           (Exception "no message")).
  - reflexivity.
  - reflexivity.
Defined.


Lemma send_gemini_response_text_then_image_witness :
  send_gemini_response text_and_image "42" initial_state
  = (Raise FinishedException,
     add_trace initial_state
       [Send gemini_command [Text "a cat"; Image png; Reply "42"]]).
Proof.
  apply send_gemini_response_text_then_image;
    [reflexivity | reflexivity | discriminate | reflexivity | discriminate].
Defined.

Lemma send_gemini_response_without_content_witness :
  send_gemini_response empty_success "42" initial_state
  = (Raise FinishedException,
     add_trace initial_state [Send gemini_command [Reply "42"]]).
Proof.
  apply send_gemini_response_without_content; [reflexivity | by right | by right].
Defined.


